(** * SemProject: the image pre-processing stages of [helper.py]

    A shallow embedding of [src/helper.py]: the four pre-processing stages
    ([to_grayscale], [binary_threshold], [bilinear_filter],
    [bicubic_filter]) in both of their modes, the pipeline that
    [get_text_from_image] builds from them, and the handling of the answer
    of the language model; followed by the properties of these functions.

    - Python [int] is [Z]; Python [float] is the primitive binary64 [float],
      so the arithmetic of the source is evaluated as CPython evaluates it
      ([float ** int] apart, which belongs to the C library and is a
      parameter).
    - A PIL image is an object on a heap: the stages receive and return
      references, and the from-scratch loops write through [image.load()].
    - A raised exception is a value of [Res]; the heap that an exception
      leaves behind is kept.
    - What PIL, EasyOCR, Streamlit and the Gemini client do is not in the
      file: they are parameters ([PIL], [Services]). *)

From Stdlib Require Import ZArith Lia List String Floats Bool Uint63.
From stdpp Require Import base option list.
Import ListNotations.

Set Warnings "-inexact-float".
Open Scope Z_scope.

(** ** Exceptions and results *)

Inductive Exn : Type :=
  | TypeError | ValueError | IndexError | AttributeError
  | OverflowError | ZeroDivisionError | UnboundLocalError | MemoryError
  | SystemError            (* a dangling reference: never raised on a well-formed heap *)
  | ExternalError (n : nat) (* whatever a collaborator outside the file raises *).

Inductive Res (A : Type) : Type :=
  | Ret (a : A)
  | Raise (e : Exn).
Arguments Ret {A} a.
Arguments Raise {A} e.

Definition res_bind {A B} (r : Res A) (k : A -> Res B) : Res B :=
  match r with
  | Ret a => k a
  | Raise e => Raise e
  end.

#[global] Instance Res_ret : MRet Res := @Ret.
#[global] Instance Res_bind : MBind Res := fun A B k r => res_bind r k.

Definition raised {A} (r : Res A) : Prop := exists e, r = Raise e.

(** ** Numbers: Python [int] and [float] *)

(** [float(z)], also the implicit conversion of an [int] operand in mixed
    arithmetic: the nearest binary64 value, ties to even.  (CPython raises
    [OverflowError] beyond about [2^1024]; sizes and channels of an image
    are machine words, so the model gives infinity there.) *)
Definition float_of_int (z : Z) : float :=
  SF2Prim (binary_normalize prec emax z 0 false).

(** [int(f)]: truncation towards zero; [ValueError] on a NaN and
    [OverflowError] on an infinity. *)
Definition int_of_float (f : float) : Res Z :=
  match Prim2SF f with
  | S754_nan => Raise ValueError
  | S754_infinity _ => Raise OverflowError
  | S754_zero _ => Ret 0
  | S754_finite s m e => Ret (cond_Zopp s (Z.shiftl (Z.pos m) e))
  end.

(** [a / b] on floats: [ZeroDivisionError] when the divisor is zero. *)
Definition float_div (a b : float) : Res float :=
  if PrimFloat.eqb b 0%float then Raise ZeroDivisionError else Ret (a / b)%float.

(** [numpy.clip(v, lo, hi)] on one component: values outside the interval
    go to its edges, a NaN stays a NaN. *)
Definition np_clip (v lo hi : float) : float :=
  if PrimFloat.ltb v lo then lo else if PrimFloat.ltb hi v then hi else v.

(** The value of a finite binary64 number is [m * 2^e] with [e >= -1074];
    [scaled] is that value times [2^1074], an integer.  Used to state the
    order and the truncation of floats over [Z]. *)
Definition scaled (f : spec_float) : option Z :=
  match f with
  | S754_zero _ => Some 0
  | S754_finite s m e => Some (cond_Zopp s (Z.pos m * 2 ^ (e + 1074)))
  | _ => None
  end.

(** The scaled value of a primitive float, when it is finite. *)
Definition fscaled (x : float) : option Z := scaled (Prim2SF x).

(** ** Images, Python values and the heap *)

(** A pixel as [image.load()] hands it out: an [int] for a single-band
    image (modes L and 1), a 3-tuple for an RGB image. *)
Inductive Pixel : Type :=
  | Lum (v : Z)
  | RGB (r g b : Z).

(** [image.size] and the pixel buffer, indexed [x, y] with
    [0 <= x < width] and [0 <= y < height]. *)
Record Image : Type := {
  width : Z;
  height : Z;
  data : Z -> Z -> Pixel
}.

Definition in_bounds (img : Image) (x y : Z) : bool :=
  (0 <=? x) && (x <? width img) && (0 <=? y) && (y <? height img).

Definition set_data (img : Image) (x y : Z) (p : Pixel) : Image :=
  {| width := width img;
     height := height img;
     data := fun x' y' => if (x' =? x) && (y' =? y) then p else data img x' y' |}.

(** The heap of image objects; a reference is an index into it. *)
Abbreviation Heap := (list Image).

Inductive PyVal : Type :=
  | PyNone
  | PyImg (l : nat)    (* a [PIL.Image] object *)
  | PyStr (s : string)
  | PyFile (f : nat)   (* the file object of [st.file_uploader] *).

(** Computations on the heap that may raise. *)
Definition M (A : Type) : Type := Heap -> Heap * Res A.

#[global] Instance M_ret : MRet M := fun A a h => (h, Ret a).
#[global] Instance M_bind : MBind M := fun A B k m h =>
  match m h with
  | (h', Ret a) => k a h'
  | (h', Raise e) => (h', Raise e)
  end.

Definition raise {A} (e : Exn) : M A := fun h => (h, Raise e).
Definition lift {A} (r : Res A) : M A := fun h => (h, r).

Definition load (l : nat) : M Image := fun h =>
  match h !! l with
  | Some img => (h, Ret img)
  | None => (h, Raise SystemError)
  end.

Definition store (l : nat) (img : Image) : M unit := fun h => (<[l := img]> h, Ret tt).

Definition alloc (img : Image) : M nat := fun h => (h ++ [img], Ret (length h)).

(** Attribute access on what should be an image ([image.width],
    [image.load()], [image.convert], ...): [AttributeError] on [None]. *)
Definition as_image (v : PyVal) : M nat :=
  match v with
  | PyImg l => mret l
  | _ => raise AttributeError
  end.

(** [image_data[x, y]]: [IndexError] outside the image.  (PIL wraps negative
    indices; the source never passes one to an unguarded access.) *)
Definition getpixel (l : nat) (x y : Z) : M Pixel :=
  img ← load l;
  if in_bounds img x y then mret (data img x y) else raise IndexError.

(** [image_data[x, y] = p]. *)
Definition putpixel (l : nat) (x y : Z) (p : Pixel) : M unit :=
  img ← load l;
  if in_bounds img x y then store l (set_data img x y p) else raise IndexError.

(** [red , green , blue = p]. *)
Definition unpack3 (p : Pixel) : Res (Z * Z * Z) :=
  match p with
  | RGB r g b => Ret (r, g, b)
  | Lum _ => Raise TypeError
  end.

(** [p[i]]. *)
Definition channel (p : Pixel) (i : nat) : Res Z :=
  match p with
  | RGB r g b =>
      match i with
      | O => Ret r
      | 1%nat => Ret g
      | 2%nat => Ret b
      | _ => Raise IndexError
      end
  | Lum _ => Raise TypeError
  end.

(** [range(n)] and the [for] loop. *)
Definition range (n : Z) : list Z := map Z.of_nat (seq 0 (Z.to_nat n)).

Fixpoint for_each {A} (xs : list A) (body : A -> M unit) : M unit :=
  match xs with
  | [] => mret tt
  | x :: xs' => body x;; for_each xs' body
  end.

(** ** Collaborators outside the file *)

Inductive Resample : Type := BILINEAR | BICUBIC.

(** The methods of [PIL.Image] that the fast mode calls.  Each may raise;
    [convert] and [point] build a new image, [thumbnail] rewrites the image
    it is called on.  [Image_storage w h] tells whether [Image.new] gets the
    memory for an image of [w] columns and [h] rows. *)
Class PIL : Type := {
  Image_convert_L : Image -> Res Image;
  Image_point_1 : (Z -> Z) -> Image -> Res Image;
  Image_thumbnail : Z * Z -> Resample -> Image -> Res Image;
  Image_storage : Z -> Z -> bool
}.

(** [float ** int], which CPython hands to the C library's [pow]. *)
Class LibM : Type := {
  float_pow : float -> Z -> float
}.

(** The largest C [int]. *)
Definition INT_MAX : Z := 2147483647.

(** [Image.new("RGB", (w, h))]: a black image.  PIL refuses a negative size
    ([ValueError]) and a size that is no C [int] ([OverflowError]); for an
    image that has a column or a row the memory may be refused
    ([MemoryError]). *)
Definition Image_new `{PIL} (w h : Z) : Res Image :=
  if (w <? 0) || (h <? 0) then Raise ValueError
  else if (INT_MAX <? w) || (INT_MAX <? h) then Raise OverflowError
  else if ((0 <? w) || (0 <? h)) && negb (Image_storage w h) then Raise MemoryError
  else Ret {| width := w; height := h; data := fun _ _ => RGB 0 0 0 |}.

(** [image.thumbnail(size, resample)] as an expression: the image is
    resized in place and the value of the call is [None]. *)
Definition thumbnail `{PIL} (image : PyVal) (size : Z * Z) (resample : Resample) : M PyVal :=
  l ← as_image image;
  img ← load l;
  img' ← lift (Image_thumbnail size resample img);
  store l img';;
  mret PyNone.

(** ** [to_grayscale] (lines 8-41) *)

(** Lines 33-37: the luminance of one pixel. *)
Definition luminance (red green blue : Z) : Res Z :=
  let red_gray := (0.2989 * float_of_int red)%float in
  let green_gray := (0.5870 * float_of_int green)%float in
  let blue_gray := (0.1140 * float_of_int blue)%float in
  int_of_float (red_gray + green_gray + blue_gray)%float.

Definition to_grayscale `{PIL} (image : PyVal) (fast : bool) : M PyVal :=
  if fast then
    l ← as_image image;
    img ← load l;
    img' ← lift (Image_convert_L img);
    l' ← alloc img';
    mret (PyImg l')
  else
    l ← as_image image;
    img ← load l;
    for_each (range (width img)) (fun row =>
      for_each (range (height img)) (fun col =>
        p ← getpixel l row col;
        '(red, green, blue) ← lift (unpack3 p);
        gray ← lift (luminance red green blue);
        putpixel l row col (RGB gray gray gray)));;
    mret image.

(** ** [binary_threshold] (lines 43-73) *)

Definition default_threshold : Z := 128.

(** Line 59: [lambda pixel : 0 if pixel < threshold else 255]. *)
Definition threshold_point (threshold : Z) (pixel : Z) : Z :=
  if pixel <? threshold then 0 else 255.

Definition binary_threshold `{PIL} (image : PyVal) (threshold : Z) (fast : bool) : M PyVal :=
  if fast then
    l ← as_image image;
    img ← load l;
    img' ← lift (Image_point_1 (threshold_point threshold) img);
    l' ← alloc img';
    mret (PyImg l')
  else
    l ← as_image image;
    img ← load l;
    for_each (range (width img)) (fun row =>
      for_each (range (height img)) (fun col =>
        p ← getpixel l row col;
        gray_value ← lift (channel p 0);
        if gray_value <? threshold then putpixel l row col (RGB 0 0 0)
        else putpixel l row col (RGB 255 255 255)));;
    mret image.

(** ** [bilinear_filter] (lines 75-128) *)

(** Lines 118-119, one channel: the weighted sum of the four corners,
    truncated by [int]. *)
Definition interpolate (x y : float) (x1 y1 : Z) (tl tr bl br : Z) : Res Z :=
  let dx := (x - float_of_int x1)%float in
  let dy := (y - float_of_int y1)%float in
  int_of_float ((1 - dx) * (1 - dy) * float_of_int tl + dx * (1 - dy) * float_of_int tr +
                (1 - dx) * dy * float_of_int bl + dx * dy * float_of_int br)%float.

(** Lines 117-124: the three channels, in the order Python evaluates them. *)
Definition interpolated_pixel (x y : float) (x1 y1 : Z)
    (top_left top_right bottom_left bottom_right : Pixel) : Res Pixel :=
  let chan (i : nat) : Res Z :=
    tl ← channel top_left i;
    tr ← channel top_right i;
    bl ← channel bottom_left i;
    br ← channel bottom_right i;
    interpolate x y x1 y1 tl tr bl br in
  c0 ← chan 0%nat;
  c1 ← chan 1%nat;
  c2 ← chan 2%nat;
  mret (RGB c0 c1 c2).

Definition bilinear_filter `{PIL} (image : PyVal) (scale_factor : float) (fast : bool) : M PyVal :=
  if fast then
    image ← thumbnail image (300, 300) BILINEAR;
    mret image
  else
    l ← as_image image;
    img ← load l;
    let original_width := width img in
    let original_height := height img in
    new_width ← lift (int_of_float (float_of_int original_width * scale_factor));
    new_height ← lift (int_of_float (float_of_int original_height * scale_factor));
    resized ← lift (Image_new new_width new_height);
    resized_img ← alloc resized;
    for_each (range new_width) (fun row =>
      for_each (range new_height) (fun col =>
        x ← lift (float_div (float_of_int row) scale_factor);
        y ← lift (float_div (float_of_int col) scale_factor);
        x1 ← lift (int_of_float x);
        y1 ← lift (int_of_float y);
        let x2 := Z.min (x1 + 1) (original_width - 1) in
        let y2 := Z.min (y1 + 1) (original_height - 1) in
        top_left ← getpixel l x1 y1;
        top_right ← getpixel l x2 y1;
        bottom_left ← getpixel l x1 y2;
        bottom_right ← getpixel l x2 y2;
        pixel ← lift (interpolated_pixel x y x1 y1 top_left top_right bottom_left bottom_right);
        putpixel resized_img row col pixel));;
    mret image.

(** ** [bicubic_filter] (lines 131-197) *)

(** Lines 159-165. *)
Definition cubic `{LibM} (pixel : float) : float :=
  let cubic_factor := (- 0.5)%float in
  if (abs pixel <=? 1)%float then
    ((cubic_factor + 2) * float_pow (abs pixel) 3
       - (cubic_factor + 3) * float_pow (abs pixel) 2 + 1)%float
  else if (1 <? abs pixel)%float && (abs pixel <? 2)%float then
    (cubic_factor * float_pow (abs pixel) 3 - 5 * cubic_factor * float_pow (abs pixel) 2
       + 8 * cubic_factor * abs pixel - 4 * cubic_factor)%float
  else 0%float.

Definition Vec3 : Type := float * float * float.

(** [np.array(p)] stored into a row of three floats: a tuple is copied, a
    scalar is broadcast. *)
Definition np_array (p : Pixel) : Vec3 :=
  match p with
  | RGB r g b => (float_of_int r, float_of_int g, float_of_int b)
  | Lum v => (float_of_int v, float_of_int v, float_of_int v)
  end.

Definition vec_scale (v : Vec3) (k : float) : Vec3 :=
  let '(a, b, c) := v in (a * k, b * k, c * k)%float.

Definition vec_add (u v : Vec3) : Vec3 :=
  let '(a, b, c) := u in let '(a', b', c') := v in (a + a', b + b', c + c')%float.

Definition vec_zero : Vec3 := (0, 0, 0)%float.

(** Lines 184-185: one entry of [contributions]. *)
Definition contribution (img : Image) (x_val y_val : Z) : Vec3 :=
  if (0 <=? x_val) && (x_val <? width img) && (0 <=? y_val) && (y_val <? height img)
  then np_array (data img x_val y_val)
  else np_array (RGB 0 0 0).

(** Lines 178-185: the [4 x 4] table, indexed [x_index, y_index]. *)
Definition contributions (img : Image) (x_vals y_vals : list Z) : list (list Vec3) :=
  map (fun x_val => map (fun y_val => contribution img x_val y_val) y_vals) x_vals.

Definition contributions_at (c : list (list Vec3)) (x_index y_index : nat) : Vec3 :=
  nth y_index (nth x_index c []) vec_zero.

(** Lines 187-191: the weighted sum over the table. *)
Definition weighted_sum `{LibM} (c : list (list Vec3))
    (scaled_row scaled_col : float) (scaled_row_iter scaled_col_iter : Z) : Vec3 :=
  fold_left (fun acc x_index =>
    fold_left (fun acc y_index =>
      vec_add acc
        (vec_scale
           (vec_scale (contributions_at c x_index y_index)
              (cubic (scaled_row - float_of_int scaled_row_iter
                        - float_of_int (Z.of_nat x_index))%float))
           (cubic (scaled_col - float_of_int scaled_col_iter
                     - float_of_int (Z.of_nat y_index))%float)))
      (seq 0 4) acc)
    (seq 0 4) vec_zero.

(** Lines 193-195: [np.clip] and [tuple(map(int, ...))]. *)
Definition clipped_pixel (v : Vec3) : Res Pixel :=
  let '(v0, v1, v2) := v in
  r ← int_of_float (np_clip v0 0 255);
  g ← int_of_float (np_clip v1 0 255);
  b ← int_of_float (np_clip v2 0 255);
  mret (RGB r g b).

Definition bicubic_filter `{PIL} `{LibM} (image : PyVal) (scale_factor : float) (fast : bool)
    : M PyVal :=
  if fast then
    (* line 146 rebinds [image]; line 197 returns [resized_img], which only
       the other branch binds *)
    thumbnail image (300, 300) BICUBIC;;
    raise UnboundLocalError
  else
    l ← as_image image;
    img ← load l;
    let original_width := width img in
    let original_height := height img in
    new_width ← lift (int_of_float (float_of_int original_width * scale_factor));
    new_height ← lift (int_of_float (float_of_int original_height * scale_factor));
    resized ← lift (Image_new new_width new_height);
    resized_img ← alloc resized;
    for_each (range new_width) (fun row =>
      for_each (range new_height) (fun col =>
        scaled_row ← lift (float_div (float_of_int row) scale_factor);
        scaled_col ← lift (float_div (float_of_int col) scale_factor);
        sr ← lift (int_of_float scaled_row);
        sc ← lift (int_of_float scaled_col);
        let scaled_row_iter := sr - 1 in
        let scaled_col_iter := sc - 1 in
        let x_vals := map (fun scale => scaled_row_iter + scale) (range 4) in
        let y_vals := map (fun scale => scaled_col_iter + scale) (range 4) in
        original ← load l;
        let c := contributions original x_vals y_vals in
        let sum := weighted_sum c scaled_row scaled_col scaled_row_iter scaled_col_iter in
        pixel ← lift (clipped_pixel sum);
        putpixel resized_img row col pixel));;
    mret (PyImg resized_img).

(** ** [get_text_from_image] (lines 199-283) *)

Record OcrItem : Type := {
  ocr_box : list (Z * Z);
  ocr_text : string;      (* [val[1]] *)
  ocr_confidence : float
}.

(** What [model.generate_content] hands back: reading [response.text] and
    reading [response.parts] may each raise. *)
Record Response : Type := {
  response_text : Res string;
  response_parts : Res (list string)
}.

(** [response.parts[0]]. *)
Definition response_parts_0 (response : Response) : Res string :=
  parts ← response_parts response;
  match parts with
  | p :: _ => Ret p
  | [] => Raise IndexError
  end.

(** Where the API key comes from; the key written in line 232 is not
    repeated here. *)
Inductive ApiKey : Type :=
  | InlineKey
  | SecretKey (value : string).

Class Services : Type := {
  Image_open : PyVal -> M PyVal;                 (* [Image.open] *)
  Image_save : PyVal -> string -> M unit;        (* [image.save] *)
  readtext : PyVal + string -> M (list OcrItem); (* [easyocr.Reader(['en']).readtext] *)
  st_write : string -> M unit;
  st_secrets : string -> M string;
  genai_configure : ApiKey -> M unit;
  generate_content : string -> M Response        (* on [GenerativeModel('gemini-pro')] *)
}.

Definition nl : string := String (Ascii.ascii_of_nat 10) EmptyString.

Definition prompt_head : string :=
  nl ++ "    Consider yourself a doctor. This is a prescription/test report of a Patient"
     ++ nl ++ "    ".

Definition prompt_tail : string :=
  nl ++ nl ++ "    Analyse the Report and provide suggestions and your analysis as text. If there is a difficult word. Try to explain the word in simple language. Add a disclaimer to suggest the pateint to visit a doctor if necessary. Do not use lines like I am not a doctor and other. Use Patient name wherevar necessary. If telling for a desiase, also tell expected symptons that the person might be feeling "
     ++ nl ++ "        ".

(** Lines 251-254: the four stages, each called with its default
    [fast = True]. *)
Definition preprocess `{PIL} `{LibM} (image : PyVal) : M PyVal :=
  image ← to_grayscale image true;
  image ← binary_threshold image default_threshold true;
  image ← bilinear_filter image (float_of_int 2) true;
  image ← bicubic_filter image (float_of_int 2) true;
  mret image.

(** Lines 212-242 and 251-278: everything up to the answer of the model. *)
Definition ask_model `{PIL} `{LibM} `{Services} (image : PyVal) (fast : bool) : M Response :=
  if fast then
    image ← Image_open image;
    Image_save image "Image.jpg";;
    text ← readtext (inr "Image.jpg"%string);
    st_write "Image Saved";;
    let text := String.concat " " (map ocr_text text) in
    st_write "Extracted Images , Please wait for the analysis";;
    genai_configure InlineKey;;
    let prompt := (prompt_head ++ text ++ prompt_tail)%string in
    generate_content prompt
  else
    image ← preprocess image;
    text ← readtext (inl image);
    let text := String.concat " " (map ocr_text text) in
    key ← st_secrets "API_KEY";
    genai_configure (SecretKey key);;
    let prompt := (prompt_head ++ text ++ "  " ++ prompt_tail)%string in
    generate_content prompt.

(** Lines 244-247 and 280-283. *)
Definition handle_response (response : Response) : PyVal :=
  match response_text response with
  | Ret text => PyStr text                       (* [try : return response.text] *)
  | Raise _ =>
      match response_parts_0 response with
      | Ret _ => PyNone                          (* [try : response.parts[0]], then the end of the function *)
      | Raise _ => PyStr "Sorry I couldn Understand the Prescription"
      end
  end.

Definition get_text_from_image `{PIL} `{LibM} `{Services} (image : PyVal) (fast : bool)
    : M PyVal :=
  response ← ask_model image fast;
  mret (handle_response response).

(** ** Notions used to state the properties *)

(** Every pixel inside the image is an RGB tuple. *)
Definition is_rgb (img : Image) : Prop :=
  forall x y, in_bounds img x y = true -> exists r g b, data img x y = RGB r g b.

(** Every pixel inside the image is an RGB tuple of 8-bit channels. *)
Definition channels_in_range (img : Image) : Prop :=
  forall x y, in_bounds img x y = true ->
    exists r g b, data img x y = RGB r g b /\
      0 <= r <= 255 /\ 0 <= g <= 255 /\ 0 <= b <= 255.

(** A property of the heap that every step keeps, whether it returns or
    raises. *)
Definition preserves {A} (P : Heap -> Prop) (m : M A) : Prop :=
  forall h, P h -> P (fst (m h)).

(** Every object that is on the heap [h] is the same on the later heap. *)
Definition keeps (h : Heap) (h' : Heap) : Prop :=
  forall l img, h !! l = Some img -> h' !! l = Some img.

(** The object allocated at the end of [h] holds 8-bit RGB pixels. *)
Definition fresh_in_range (h : Heap) (h' : Heap) : Prop :=
  exists im, h' !! length h = Some im /\ channels_in_range im.

(** What one iteration of the from-scratch thresholder makes of a pixel. *)
Definition threshold_pixel (threshold : Z) (p : Pixel) : Pixel :=
  match p with
  | RGB l _ _ => if l <? threshold then RGB 0 0 0 else RGB 255 255 255
  | Lum _ => p
  end.

(** What one iteration of the from-scratch grayscale makes of a pixel. *)
Definition gray_pixel (p : Pixel) : Pixel :=
  match p with
  | RGB r g b =>
      match luminance r g b with
      | Ret y => RGB y y y
      | Raise _ => p
      end
  | Lum _ => p
  end.

(** The luminance as the formula reads over the rationals:
    [floor ((2989 R + 5870 G + 1140 B) / 10000)]. *)
Definition weighted (r g b : Z) : Z := 2989 * r + 5870 * g + 1140 * b.
Definition exact_luminance (r g b : Z) : Z := weighted r g b / 10000.

(** *** A table of the 256 channel values

    Each channel value with its machine integer and its float; the check
    below runs [luminance] over all [256^3] pixels on primitive numbers. *)
Definition channel_entry (n : nat) : Z * int * float :=
  (Z.of_nat n, Uint63.of_Z (Z.of_nat n), float_of_int (Z.of_nat n)).

Definition channel_table : list (Z * int * float) :=
  Eval vm_compute in map channel_entry (seq 0 256).

Definition luminance_float (r g b : float) : float :=
  (0.2989 * r + 0.5870 * g + 0.1140 * b)%float.

(** The float sum lies in [[q, q+1)] for [q] the exact luminance, or in
    [[q-1, q)] at a pixel whose exact weighted sum is the integer [q]. *)
Definition luminance_ok (r g b : Z * int * float) : bool :=
  let v := luminance_float (snd r) (snd g) (snd b) in
  let s := (2989 * snd (fst r) + 5870 * snd (fst g) + 1140 * snd (fst b))%uint63 in
  let q := (s / 10000)%uint63 in
  (PrimFloat.leb (of_uint63 q) v && PrimFloat.ltb v (of_uint63 (q + 1)))
  || ((s mod 10000 =? 0)%uint63 && (1 <=? q)%uint63
      && PrimFloat.leb (of_uint63 (q - 1)) v && PrimFloat.ltb v (of_uint63 q)).

(** ** Fixtures *)

(** A PIL whose methods all fail, with memory for every image: enough to
    run the from-scratch mode. *)
Definition PIL_absent : PIL :=
  {| Image_convert_L := fun _ => Raise (ExternalError 0);
     Image_point_1 := fun _ _ => Raise (ExternalError 0);
     Image_thumbnail := fun _ _ _ => Raise (ExternalError 0);
     Image_storage := fun _ _ => true |}.

(** A PIL that keeps every image as it is: enough to run the fast mode. *)
Definition PIL_identity : PIL :=
  {| Image_convert_L := fun img => Ret img;
     Image_point_1 := fun _ img => Ret img;
     Image_thumbnail := fun _ _ img => Ret img;
     Image_storage := fun _ _ => true |}.

(** A PIL with memory for a million pixels and no more. *)
Definition PIL_small : PIL :=
  {| Image_convert_L := fun img => Ret img;
     Image_point_1 := fun _ img => Ret img;
     Image_thumbnail := fun _ _ img => Ret img;
     Image_storage := fun w h => w * h <=? 1000000 |}.

(** Powers by repeated multiplication, to run the bicubic kernel. *)
Definition LibM_product : LibM :=
  {| float_pow := fun x n => Z.iter n (fun a => (a * x)%float) 1%float |}.

Definition uniform (w h : Z) (p : Pixel) : Image :=
  {| width := w; height := h; data := fun _ _ => p |}.

(** A photograph of two by two pixels. *)
Definition photo : Image :=
  {| width := 2; height := 2; data := fun x y => RGB (100 * x) (100 * y) 50 |}.

(** Answers of the model: one without any part, one with several parts
    (reading [text] raises on both). *)
Definition response_empty : Response :=
  {| response_text := Raise ValueError; response_parts := Ret [] |}.

Definition response_two_parts : Response :=
  {| response_text := Raise ValueError;
     response_parts := Ret ["Take one tablet"; "twice a day"]%string |}.

(** Collaborators that all succeed, the model answering [response]. *)
Definition Services_answering (response : Response) : Services :=
  {| Image_open := fun _ => alloc (uniform 1 1 (RGB 255 255 255)) ≫= fun l => mret (PyImg l);
     Image_save := fun _ _ => mret tt;
     readtext := fun _ => mret [];
     st_write := fun _ => mret tt;
     st_secrets := fun _ => mret ""%string;
     genai_configure := fun _ => mret tt;
     generate_content := fun _ => mret response |}.
(** ** [get_speech_from_text] (lines 285-303) and [app.py] *)

(** The collaborators of the page: Streamlit widgets and the gTTS object. *)
Class AppServices : Type := {
  st_file_uploader : string -> M PyVal;
  st_write_value : PyVal -> M unit;                 (* [st.write(text)] *)
  gTTS : PyVal -> string -> bool -> M nat;          (* [gTTS(text = , lang = , slow = )] *)
  gTTS_save : nat -> string -> M unit;              (* [myobj.save] *)
  st_audio : string -> string -> M unit;
  st_sidebar_selectbox : string -> list string -> M string
}.

Definition get_speech_from_text `{AppServices} (text : PyVal) : M PyVal :=
  myobj ← gTTS text "en" false;
  gTTS_save myobj "audio.wav";;
  mret PyNone.

(** The truth value of an object in [if image :]. *)
Definition truthy (v : PyVal) : bool :=
  match v with
  | PyNone => false
  | PyStr s => negb (String.eqb s "")
  | PyImg _ | PyFile _ => true
  end.

(** [app.py], lines 7-26; [get_text_from_image] is called with its default
    [fast = True]. *)
Definition project `{PIL} `{LibM} `{Services} `{AppServices} : M PyVal :=
  image ← st_file_uploader "Upload an image";
  if truthy image then
    text ← get_text_from_image image true;
    st_write_value text;;
    get_speech_from_text text;;
    st_audio "audio.wav" "audio/wav";;
    mret PyNone
  else mret PyNone.

(** Lines 28-30. *)
Definition report : M PyVal := mret PyNone.
Definition synopsis : M PyVal := mret PyNone.
Definition teams : M PyVal := mret PyNone.

(** Lines 33-45: the body of the script. *)
Definition app `{PIL} `{LibM} `{Services} `{AppServices} : M PyVal :=
  option ← st_sidebar_selectbox "Go to" ["Project"; "Report"; "Synopsis"; "Teams"]%string;
  if String.eqb option "Project" then project
  else if String.eqb option "Report" then report
  else if String.eqb option "Synopsis" then synopsis
  else if String.eqb option "Teams" then teams
  else mret PyNone.

(** ** Notions used to state further properties *)

(** [original_data[x, y]] on an image that is known. *)
Definition pixel_at (img : Image) (x y : Z) : Res Pixel :=
  if in_bounds img x y then Ret (data img x y) else Raise IndexError.

(** Lines 106-124: the pixel that the from-scratch bilinear resampler
    computes for [(row, col)], as a function of the source image. *)
Definition bilinear_pixel (img : Image) (scale_factor : float) (row col : Z) : Res Pixel :=
  x ← float_div (float_of_int row) scale_factor;
  y ← float_div (float_of_int col) scale_factor;
  x1 ← int_of_float x;
  y1 ← int_of_float y;
  let x2 := Z.min (x1 + 1) (width img - 1) in
  let y2 := Z.min (y1 + 1) (height img - 1) in
  top_left ← pixel_at img x1 y1;
  top_right ← pixel_at img x2 y1;
  bottom_left ← pixel_at img x1 y2;
  bottom_right ← pixel_at img x2 y2;
  interpolated_pixel x y x1 y1 top_left top_right bottom_left bottom_right.

(** Lines 171-195: the pixel that the from-scratch bicubic resampler
    computes for [(row, col)]. *)
Definition bicubic_pixel `{LibM} (img : Image) (scale_factor : float) (row col : Z)
    : Res Pixel :=
  scaled_row ← float_div (float_of_int row) scale_factor;
  scaled_col ← float_div (float_of_int col) scale_factor;
  sr ← int_of_float scaled_row;
  sc ← int_of_float scaled_col;
  let scaled_row_iter := sr - 1 in
  let scaled_col_iter := sc - 1 in
  let x_vals := map (fun scale => scaled_row_iter + scale) (range 4) in
  let y_vals := map (fun scale => scaled_col_iter + scale) (range 4) in
  clipped_pixel
    (weighted_sum (contributions img x_vals y_vals)
       scaled_row scaled_col scaled_row_iter scaled_col_iter).

(** A triple for computations that may raise: from a heap in [P], [m]
    returns into [Q] or raises an exception of [E]. *)
Definition triple {A} (P : Heap -> Prop) (m : M A) (Q : A -> Heap -> Prop)
    (E : Exn -> Prop) : Prop :=
  forall h, P h ->
    match m h with
    | (h', Ret a) => Q a h'
    | (_, Raise e) => E e
    end.

(** The image [dst] of size [nw x nh] holds, in its columns [x < k], the
    pixels that [pix] gives; the image [src] is [img]. *)
Definition filled (pix : Z -> Z -> Res Pixel) (src dst : nat) (img : Image)
    (nw nh : Z) (k : Z) (h : Heap) : Prop :=
  h !! src = Some img /\
  exists d, h !! dst = Some d /\ width d = nw /\ height d = nh /\
    forall x y, 0 <= x < k -> 0 <= y < nh -> pix x y = Ret (data d x y).

(** What the from-scratch resamplers raise on an image that exists. *)
Definition bilinear_raises (img : Image) (e : Exn) : Prop :=
  e = ValueError \/ e = OverflowError \/ e = MemoryError \/ e = IndexError
  \/ (e = TypeError /\ ~ is_rgb img).

Definition bicubic_raises (e : Exn) : Prop :=
  e = ValueError \/ e = OverflowError \/ e = MemoryError.

(** Collaborators of the page that all succeed and do nothing. *)
Definition AppServices_quiet (upload : PyVal) : AppServices :=
  {| st_file_uploader := fun _ => mret upload;
     st_write_value := fun _ => mret tt;
     gTTS := fun _ _ _ => mret 0%nat;
     gTTS_save := fun _ _ => mret tt;
     st_audio := fun _ _ => mret tt;
     st_sidebar_selectbox := fun _ _ => mret "Project"%string |}.


(** An answer of the model whose text can be read. *)
Definition response_plain : Response :=
  {| response_text := Ret "Take one tablet twice a day"%string;
     response_parts := Ret ["Take one tablet twice a day"%string] |}.
(** * Part II: properties *)

(** ** Facts on binary64 values *)
Module FloatFacts.

Lemma digits2_pos_bounds (m : positive) :
  2 ^ (Z.pos (digits2_pos m) - 1) <= Z.pos m < 2 ^ Z.pos (digits2_pos m).
Proof.
  induction m as [m IH | m IH |]; cbn [digits2_pos].
  - rewrite Pos2Z.inj_succ.
    replace (Z.succ (Z.pos (digits2_pos m)) - 1) with (Z.succ (Z.pos (digits2_pos m) - 1)) by lia.
    rewrite !Z.pow_succ_r by lia. lia.
  - rewrite Pos2Z.inj_succ.
    replace (Z.succ (Z.pos (digits2_pos m)) - 1) with (Z.succ (Z.pos (digits2_pos m) - 1)) by lia.
    rewrite !Z.pow_succ_r by lia. lia.
  - cbn. lia.
Qed.

(** What [valid_binary] says of a finite binary64 number. *)
Lemma bounded_inv (m : positive) (e : Z) :
  bounded prec emax m e = true ->
  -1074 <= e <= 971 /\ Z.pos m < 2 ^ 53 /\ (-1074 < e -> 2 ^ 52 <= Z.pos m).
Proof.
  unfold bounded, canonical_mantissa, fexp, SpecFloat.emin, prec, emax.
  intros H. apply andb_prop in H as [Hc He].
  apply Z.eqb_eq in Hc. apply Z.leb_le in He.
  pose proof (digits2_pos_bounds m) as [Hlo Hhi].
  set (d := Z.pos (digits2_pos m)) in *.
  assert (Hd : 0 < d) by (unfold d; lia).
  split; [lia|]. split.
  - assert (d <= 53) by lia.
    apply Z.lt_le_trans with (1 := Hhi). apply Z.pow_le_mono_r; lia.
  - intros Hgt. assert (d = 53) by lia.
    replace 52 with (d - 1) by lia. exact Hlo.
Qed.

Lemma compare_finite (m1 m2 : positive) (e1 e2 : Z) :
  bounded prec emax m1 e1 = true -> bounded prec emax m2 e2 = true ->
  match e1 ?= e2 with
  | Lt => Lt
  | Gt => Gt
  | Eq => Pos.compare_cont Eq m1 m2
  end = (Z.pos m1 * 2 ^ (e1 + 1074) ?= Z.pos m2 * 2 ^ (e2 + 1074)).
Proof.
  intros H1 H2.
  apply bounded_inv in H1 as (He1 & Hm1 & Hn1).
  apply bounded_inv in H2 as (He2 & Hm2 & Hn2).
  assert (Hstep : forall m m' e e', -1074 <= e -> e < e' ->
            Z.pos m < 2 ^ 53 -> 2 ^ 52 <= Z.pos m' ->
            Z.pos m * 2 ^ (e + 1074) < Z.pos m' * 2 ^ (e' + 1074)).
  { intros m m' e e' Hlo Hlt Hm Hm'.
    replace (e' + 1074) with ((e + 1074) + (e' - e)) by lia.
    rewrite (Z.pow_add_r 2 (e + 1074) (e' - e)) by lia.
    assert (0 < 2 ^ (e + 1074)) by (apply Z.pow_pos_nonneg; lia).
    assert (2 ^ 1 <= 2 ^ (e' - e)) by (apply Z.pow_le_mono_r; lia).
    change (2 ^ 53) with (2 * 2 ^ 52) in Hm. change (2 ^ 1) with 2 in *.
    apply Z.lt_le_trans with (2 * Z.pos m' * 2 ^ (e + 1074)).
    - apply Z.mul_lt_mono_pos_r; lia.
    - replace (Z.pos m' * (2 ^ (e + 1074) * 2 ^ (e' - e)))
        with (2 ^ (e' - e) * Z.pos m' * 2 ^ (e + 1074)) by ring.
      apply Z.mul_le_mono_nonneg_r; [lia|].
      apply Z.mul_le_mono_nonneg_r; lia. }
  destruct (Z.compare_spec e1 e2) as [Heq | Hlt | Hgt].
  - subst e2. symmetry.
    rewrite <- Zmult_compare_compat_r
      by (apply Z.lt_gt, Z.pow_pos_nonneg; lia).
    reflexivity.
  - symmetry. apply Z.compare_lt_iff. apply Hstep; lia.
  - symmetry. apply Z.compare_gt_iff. apply Hstep; lia.
Qed.

(** The order of [SFcompare] is the order of the scaled values. *)
Lemma SFcompare_scaled (f1 f2 : spec_float) (a b : Z) :
  SpecFloat.valid_binary prec emax f1 = true ->
  SpecFloat.valid_binary prec emax f2 = true ->
  scaled f1 = Some a -> scaled f2 = Some b ->
  SFcompare f1 f2 = Some (a ?= b).
Proof.
  intros V1 V2 S1 S2.
  destruct f1 as [s1 | s1 | | s1 m1 e1], f2 as [s2 | s2 | | s2 m2 e2];
    cbn [scaled] in S1, S2; try discriminate;
    injection S1 as <-; injection S2 as <-; cbn [SFcompare SpecFloat.valid_binary] in *.
  - reflexivity.
  - assert (0 < Z.pos m2 * 2 ^ (e2 + 1074)).
    { apply bounded_inv in V2. apply Z.mul_pos_pos; [lia | apply Z.pow_pos_nonneg; lia]. }
    f_equal. symmetry. destruct s2; cbn [cond_Zopp].
    + apply Z.compare_gt_iff. lia.
    + apply Z.compare_lt_iff. lia.
  - assert (0 < Z.pos m1 * 2 ^ (e1 + 1074)).
    { apply bounded_inv in V1. apply Z.mul_pos_pos; [lia | apply Z.pow_pos_nonneg; lia]. }
    f_equal. symmetry. destruct s1; cbn [cond_Zopp].
    + apply Z.compare_lt_iff. lia.
    + apply Z.compare_gt_iff. lia.
  - pose proof (compare_finite m1 m2 e1 e2 V1 V2) as Hc.
    assert (0 < Z.pos m1 * 2 ^ (e1 + 1074)).
    { apply bounded_inv in V1. apply Z.mul_pos_pos; [lia | apply Z.pow_pos_nonneg; lia]. }
    assert (0 < Z.pos m2 * 2 ^ (e2 + 1074)).
    { apply bounded_inv in V2. apply Z.mul_pos_pos; [lia | apply Z.pow_pos_nonneg; lia]. }
    f_equal. destruct s1, s2; cbn [cond_Zopp].
    + rewrite Z.compare_opp, (Z.compare_antisym (Z.pos m1 * _)), <- Hc.
      destruct (e1 ?= e2); reflexivity.
    + symmetry. apply Z.compare_lt_iff. lia.
    + symmetry. apply Z.compare_gt_iff. lia.
    + exact Hc.
Qed.

Lemma compare_fscaled (x y : float) (a b : Z) :
  fscaled x = Some a -> fscaled y = Some b ->
  SFcompare (Prim2SF x) (Prim2SF y) = Some (a ?= b).
Proof.
  intros Hx Hy. apply SFcompare_scaled; auto using Prim2SF_valid.
Qed.

Lemma ltb_fscaled (x y : float) (a b : Z) :
  fscaled x = Some a -> fscaled y = Some b -> PrimFloat.ltb x y = (a <? b).
Proof.
  intros Hx Hy. rewrite FloatAxioms.ltb_spec. unfold SFltb.
  rewrite (compare_fscaled x y a b Hx Hy). unfold Z.ltb.
  destruct (a ?= b); reflexivity.
Qed.

Lemma leb_fscaled (x y : float) (a b : Z) :
  fscaled x = Some a -> fscaled y = Some b -> PrimFloat.leb x y = (a <=? b).
Proof.
  intros Hx Hy. rewrite FloatAxioms.leb_spec. unfold SFleb.
  rewrite (compare_fscaled x y a b Hx Hy). unfold Z.leb.
  destruct (a ?= b); reflexivity.
Qed.

(** [int(x)] is the scaled value divided by [2^1074], towards zero. *)
Lemma int_of_float_fscaled (x : float) (a : Z) :
  fscaled x = Some a -> int_of_float x = Ret (Z.quot a (2 ^ 1074)).
Proof.
  unfold fscaled, int_of_float. pose proof (Prim2SF_valid x) as V.
  destruct (Prim2SF x) as [s | s | | s m e]; cbn [scaled]; try discriminate.
  - intros [= <-]. reflexivity.
  - intros [= <-]. f_equal. cbn [SpecFloat.valid_binary] in V.
    apply bounded_inv in V as (He & _ & _).
    assert (Hq : Z.shiftl (Z.pos m) e = Z.quot (Z.pos m * 2 ^ (e + 1074)) (2 ^ 1074)).
    { assert (0 <= Z.pos m * 2 ^ (e + 1074)) by (apply Z.mul_nonneg_nonneg; [lia | apply Z.pow_nonneg; lia]).
      rewrite Z.quot_div_nonneg by (try assumption; apply Z.pow_pos_nonneg; lia).
      destruct (Z.le_gt_cases 0 e) as [Hpos | Hneg].
      - rewrite Z.shiftl_mul_pow2 by assumption.
        rewrite Z.pow_add_r by lia. rewrite Z.mul_assoc.
        rewrite Z.div_mul by (apply Z.pow_nonzero; lia). reflexivity.
      - replace e with (- (- e)) at 1 by lia.
        rewrite Z.shiftl_opp_r, Z.shiftr_div_pow2 by lia.
        replace 1074 with ((e + 1074) + (- e)) at 2 by lia.
        rewrite (Z.pow_add_r 2 (e + 1074) (- e)) by lia.
        rewrite (Z.mul_comm (Z.pos m)).
        rewrite Z.div_mul_cancel_l; [reflexivity | | ]; apply Z.pow_nonzero; lia. }
    destruct s; cbn [cond_Zopp]; rewrite Hq; [ | reflexivity].
    rewrite Z.quot_opp_l; [reflexivity | apply Z.pow_nonzero; lia].
Qed.

Lemma int_of_float_finite (x : float) (y : Z) :
  int_of_float x = Ret y -> exists a, fscaled x = Some a.
Proof.
  unfold fscaled, int_of_float.
  destruct (Prim2SF x); cbn [scaled]; try discriminate; eauto.
Qed.

(** A float between two finite floats is finite. *)
Lemma finite_between (lo v hi : float) (a b : Z) :
  fscaled lo = Some a -> fscaled hi = Some b ->
  PrimFloat.leb lo v = true ->
  PrimFloat.leb v hi = true \/ PrimFloat.ltb v hi = true ->
  exists c, fscaled v = Some c.
Proof.
  intros Hlo Hhi H1 H2.
  rewrite FloatAxioms.leb_spec in H1. rewrite FloatAxioms.leb_spec, FloatAxioms.ltb_spec in H2.
  unfold fscaled, SFleb, SFltb in *.
  destruct (Prim2SF v) as [s | s | | s m e]; cbn [scaled]; eauto.
  - destruct (Prim2SF lo), (Prim2SF hi); cbn in *; try discriminate;
      destruct s; destruct H2; discriminate.
  - destruct (Prim2SF lo); cbn in H1; discriminate.
Qed.

Lemma between_finite_lt (lo v hi : float) (a b : Z) :
  fscaled lo = Some a -> fscaled hi = Some b ->
  PrimFloat.leb lo v = true -> PrimFloat.ltb v hi = true ->
  exists c, fscaled v = Some c /\ a <= c < b.
Proof.
  intros Hlo Hhi H1 H2.
  destruct (finite_between lo v hi a b Hlo Hhi H1 (or_intror H2)) as [c Hc].
  exists c. split; [exact Hc|].
  rewrite (leb_fscaled lo v a c Hlo Hc) in H1.
  rewrite (ltb_fscaled v hi c b Hc Hhi) in H2.
  apply Z.leb_le in H1. apply Z.ltb_lt in H2. lia.
Qed.

(** [int] is monotone, so bounds on a float give bounds on [int] of it. *)
Lemma quot_scaled_bounds (lo hi c : Z) :
  lo * 2 ^ 1074 <= c <= hi * 2 ^ 1074 -> lo <= Z.quot c (2 ^ 1074) <= hi.
Proof.
  intros [H1 H2]. assert (Hp : 0 < 2 ^ 1074) by (apply Z.pow_pos_nonneg; lia).
  split.
  - rewrite <- (Z.quot_mul lo (2 ^ 1074)) by lia. apply Z.quot_le_mono; lia.
  - rewrite <- (Z.quot_mul hi (2 ^ 1074)) by lia. apply Z.quot_le_mono; lia.
Qed.

(** A float in [[n, n+1)] truncates to [n] (for [n >= 0]). *)
Lemma quot_scaled_unit (n c : Z) :
  0 <= n -> n * 2 ^ 1074 <= c < (n + 1) * 2 ^ 1074 -> Z.quot c (2 ^ 1074) = n.
Proof.
  intros Hn [H1 H2]. assert (Hp : 0 < 2 ^ 1074) by (apply Z.pow_pos_nonneg; lia).
  assert (0 <= c) by nia.
  rewrite Z.quot_div_nonneg by lia.
  symmetry. apply Z.div_unique with (r := c - n * 2 ^ 1074); lia.
Qed.

End FloatFacts.

(** ** The heap monad and the loops *)

Lemma bind_unfold {A B} (m : M A) (k : A -> M B) (h : Heap) :
  (m ≫= k) h =
  match m h with
  | (h', Ret a) => k a h'
  | (h', Raise e) => (h', Raise e)
  end.
Proof. reflexivity. Qed.

Lemma bind_ret {A B} (m : M A) (k : A -> M B) (h h' : Heap) (a : A) :
  m h = (h', Ret a) -> (m ≫= k) h = k a h'.
Proof. intros E. rewrite bind_unfold, E. reflexivity. Qed.

Lemma bind_raise {A B} (m : M A) (k : A -> M B) (h h' : Heap) (e : Exn) :
  m h = (h', Raise e) -> (m ≫= k) h = (h', Raise e).
Proof. intros E. rewrite bind_unfold, E. reflexivity. Qed.

Lemma lift_bind {A B} (r : Res A) (k : A -> M B) (h : Heap) :
  (lift r ≫= k) h =
  match r with
  | Ret a => k a h
  | Raise e => (h, Raise e)
  end.
Proof. rewrite bind_unfold. unfold lift. destruct r; reflexivity. Qed.

Lemma load_bind {B} (l : nat) (k : Image -> M B) (h : Heap) :
  (load l ≫= k) h =
  match h !! l with
  | Some img => k img h
  | None => (h, Raise SystemError)
  end.
Proof. rewrite bind_unfold. unfold load. destruct (h !! l); reflexivity. Qed.

Lemma preserves_ret {A} (P : Heap -> Prop) (a : A) : preserves P (mret a).
Proof. intros h Hh. exact Hh. Qed.

Lemma preserves_bind {A B} (P : Heap -> Prop) (m : M A) (k : A -> M B) :
  preserves P m -> (forall a, preserves P (k a)) -> preserves P (m ≫= k).
Proof.
  intros Hm Hk h Hh. rewrite bind_unfold.
  specialize (Hm h Hh). destruct (m h) as [h' [a | e]]; cbn [fst] in *.
  - apply Hk. exact Hm.
  - exact Hm.
Qed.

Lemma preserves_lift_bind {A B} (P : Heap -> Prop) (r : Res A) (k : A -> M B) :
  (forall a, r = Ret a -> preserves P (k a)) -> preserves P (lift r ≫= k).
Proof.
  intros Hk h Hh. rewrite lift_bind. destruct r as [a | e].
  - apply (Hk a eq_refl). exact Hh.
  - exact Hh.
Qed.

Lemma preserves_load_bind {B} (P : Heap -> Prop) (l : nat) (k : Image -> M B) :
  (forall img h, P h -> h !! l = Some img -> P (fst (k img h))) ->
  preserves P (load l ≫= k).
Proof.
  intros Hk h Hh. rewrite load_bind. destruct (h !! l) as [img |] eqn:E.
  - apply Hk; assumption.
  - exact Hh.
Qed.

Lemma preserves_getpixel_bind {B} (P : Heap -> Prop) (l : nat) (x y : Z) (k : Pixel -> M B) :
  (forall p, preserves P (k p)) -> preserves P (getpixel l x y ≫= k).
Proof.
  intros Hk. apply preserves_bind; [ | exact Hk].
  intros h Hh. unfold getpixel. rewrite load_bind.
  destruct (h !! l); [ | exact Hh]. destruct (in_bounds _ _ _); exact Hh.
Qed.

Lemma preserves_putpixel (P : Heap -> Prop) (l : nat) (x y : Z) (p : Pixel) :
  (forall h img, P h -> h !! l = Some img -> in_bounds img x y = true ->
     P (<[l := set_data img x y p]> h)) ->
  preserves P (putpixel l x y p).
Proof.
  intros Hw h Hh. unfold putpixel. rewrite load_bind.
  destruct (h !! l) as [img |] eqn:E; [ | exact Hh].
  destruct (in_bounds img x y) eqn:B; [ | exact Hh].
  cbn. apply Hw; assumption.
Qed.

Lemma preserves_for_each {A} (P : Heap -> Prop) (xs : list A) (body : A -> M unit) :
  (forall x, x ∈ xs -> preserves P (body x)) -> preserves P (for_each xs body).
Proof.
  induction xs as [ | x xs IH]; intros Hb; cbn [for_each].
  - apply preserves_ret.
  - apply preserves_bind.
    + apply Hb. left.
    + intros _. apply IH. intros x' Hx'. apply Hb. right. exact Hx'.
Qed.

(** A loop over [range n] whose steps all return: an invariant indexed by
    the number of completed iterations. *)
Lemma for_range_inv (I : Z -> Heap -> Prop) (n : Z) (body : Z -> M unit) (h : Heap) :
  I 0 h ->
  (forall k hh, 0 <= k < n -> I k hh -> exists hh', body k hh = (hh', Ret tt) /\ I (k + 1) hh') ->
  exists h', for_each (range n) body h = (h', Ret tt) /\ I (Z.max 0 n) h'.
Proof.
  intros H0 Hstep. unfold range.
  assert (Hgen : forall m start hh,
            Z.of_nat (start + m) <= Z.max 0 n ->
            I (Z.of_nat start) hh ->
            exists h', for_each (map Z.of_nat (seq start m)) body hh = (h', Ret tt)
                       /\ I (Z.of_nat (start + m)) h').
  { induction m as [ | m IH]; intros start hh Hle Hs; cbn [seq map for_each].
    - exists hh. split; [reflexivity | ]. rewrite Nat.add_0_r. exact Hs.
    - destruct (Hstep (Z.of_nat start) hh) as (hh' & Eb & Hs'); [lia | exact Hs | ].
      rewrite (bind_ret _ _ _ _ _ Eb).
      replace (Z.of_nat start + 1) with (Z.of_nat (S start)) in Hs' by lia.
      destruct (IH (S start) hh') as (h' & Ef & Hf); [lia | exact Hs' | ].
      exists h'. split; [exact Ef | ].
      replace (start + S m)%nat with (S start + m)%nat by lia. exact Hf. }
  destruct (Hgen (Z.to_nat n) 0%nat h) as (h' & Ef & Hf); [lia | exact H0 | ].
  exists h'. split; [exact Ef | ].
  replace (Z.max 0 n) with (Z.of_nat (0 + Z.to_nat n)) by lia. exact Hf.
Qed.

(** ** Loops that rewrite an image pixel by pixel

    The two nested loops of [to_grayscale] and [binary_threshold]: when the
    body replaces the pixel at [(row, col)] by [f] of its value, the loops
    return and leave [f] of the original pixel everywhere. *)
Lemma inplace_loop (f : Pixel -> Pixel) (body : Z -> Z -> M unit)
    (l : nat) (h0 : Heap) (img : Image) :
  h0 !! l = Some img ->
  (forall row col hh im,
      hh !! l = Some im -> width im = width img -> height im = height img ->
      in_bounds img row col = true -> data im row col = data img row col ->
      body row col hh = (<[l := set_data im row col (f (data img row col))]> hh, Ret tt)) ->
  exists img',
    for_each (range (width img))
      (fun row => for_each (range (height img)) (fun col => body row col)) h0
    = (<[l := img']> h0, Ret tt)
    /\ width img' = width img /\ height img' = height img
    /\ forall x y, in_bounds img x y = true -> data img' x y = f (data img x y).
Proof.
  intros Hl Hbody.
  assert (Hlen : (l < length h0)%nat) by (eapply lookup_lt_Some; exact Hl).
  set (I := fun (k : Z) (hh : Heap) =>
    exists im, hh = <[l := im]> h0 /\ width im = width img /\ height im = height img /\
      forall x y, in_bounds img x y = true ->
        data im x y = if x <? k then f (data img x y) else data img x y).
  destruct (for_range_inv I (width img)
              (fun row => for_each (range (height img)) (fun col => body row col)) h0)
    as (h' & Eloop & (img' & -> & Hw & Hh & Hd)).
  - exists img. repeat split; [symmetry; apply list_insert_id; exact Hl | ].
    intros x y B. unfold in_bounds in B.
    destruct (Z.ltb_spec x 0); [lia | reflexivity].
  - intros k hh Hk (im & -> & Hw & Hh & Hd).
    set (J := fun (j : Z) (hh : Heap) =>
      exists im', hh = <[l := im']> h0 /\ width im' = width img /\ height im' = height img /\
        forall x y, in_bounds img x y = true ->
          data im' x y = if (x <? k) || ((x =? k) && (y <? j))
                         then f (data img x y) else data img x y).
    destruct (for_range_inv J (height img) (fun col => body k col) (<[l := im]> h0))
      as (h' & Eloop & (im' & -> & Hw' & Hh' & Hd')).
    + exists im. repeat split; try assumption.
      intros x y B. rewrite (Hd x y B). unfold in_bounds in B.
      destruct (Z.ltb_spec y 0); [lia | ]. rewrite andb_false_r, orb_false_r. reflexivity.
    + intros j hh Hj (im' & -> & Hw' & Hh' & Hd').
      assert (B : in_bounds img k j = true).
      { unfold in_bounds. repeat (apply andb_true_intro; split);
          first [apply Z.leb_le | apply Z.ltb_lt]; lia. }
      assert (Horig : data im' k j = data img k j).
      { rewrite (Hd' k j B). rewrite Z.ltb_irrefl, Z.eqb_refl, Z.ltb_irrefl. reflexivity. }
      eexists. split.
      * apply (Hbody k j _ im'); try assumption.
        apply list_lookup_insert_eq. exact Hlen.
      * unfold J. eexists. split; [apply list_insert_insert_eq | ].
        cbn [set_data width height data]. repeat split; try assumption.
        intros x y Bxy. rewrite (Hd' x y Bxy).
        destruct (Z.eqb_spec x k) as [-> | Hx], (Z.eqb_spec y j) as [-> | Hy]; cbn [andb].
        -- rewrite Z.ltb_irrefl. cbn [orb andb].
           destruct (Z.ltb_spec j (j + 1)); [reflexivity | lia].
        -- rewrite Z.ltb_irrefl. cbn [orb].
           destruct (Z.ltb_spec y j), (Z.ltb_spec y (j + 1)); try lia; reflexivity.
        -- rewrite !orb_false_r. reflexivity.
        -- rewrite !orb_false_r. reflexivity.
    + exists (<[l := im']> h0). split; [exact Eloop | ].
      exists im'. repeat split; try assumption.
      intros x y B. rewrite (Hd' x y B). unfold in_bounds in B.
      apply andb_prop in B as [B By2]. apply andb_prop in B as [B By1].
      apply Z.ltb_lt in By2. apply Z.leb_le in By1.
      destruct (Z.eqb_spec x k) as [-> | Hx]; cbn [andb].
      * destruct (Z.ltb_spec y (Z.max 0 (height img))); [ | lia].
        rewrite orb_true_r. destruct (Z.ltb_spec k (k + 1)); [reflexivity | lia].
      * rewrite orb_false_r.
        destruct (Z.ltb_spec x k), (Z.ltb_spec x (k + 1)); try lia; reflexivity.
  - exists img'. split; [exact Eloop | ]. repeat split; try assumption.
    intros x y B. rewrite (Hd x y B). unfold in_bounds in B.
    apply andb_prop in B as [B _]. apply andb_prop in B as [B _].
    apply andb_prop in B as [_ Bx]. apply Z.ltb_lt in Bx.
    destruct (Z.ltb_spec x (Z.max 0 (width img))); [reflexivity | lia].
Qed.

(** ** The luminance of 8-bit channels *)

Lemma channel_table_eq : channel_table = map channel_entry (seq 0 256).
Proof. vm_compute. reflexivity. Qed.

Lemma channel_entry_in (z : Z) :
  0 <= z <= 255 -> In (z, Uint63.of_Z z, float_of_int z) channel_table.
Proof.
  intros Hz. rewrite channel_table_eq.
  replace (z, Uint63.of_Z z, float_of_int z) with (channel_entry (Z.to_nat z)).
  - apply in_map. apply in_seq. lia.
  - unfold channel_entry. rewrite Z2Nat.id by lia. reflexivity.
Qed.

Lemma small_int_check_ok :
  forallb (fun n =>
    match scaled (binary_normalize prec emax (Z.of_nat n) 0 false) with
    | Some a => a =? Z.of_nat n * 2 ^ 1074
    | None => false
    end) (seq 0 257) = true.
Proof. vm_compute. reflexivity. Qed.

(** The integers up to 256 are floats, exactly. *)
Lemma small_int_scaled (z : Z) :
  0 <= z <= 256 -> scaled (binary_normalize prec emax z 0 false) = Some (z * 2 ^ 1074).
Proof.
  intros Hz.
  assert (Hin : In (Z.to_nat z) (seq 0 257)) by (apply in_seq; lia).
  pose proof (proj1 (forallb_forall _ _) small_int_check_ok _ Hin) as H.
  cbv beta in H. rewrite Z2Nat.id in H by lia.
  destruct (scaled _); [apply Z.eqb_eq in H; congruence | discriminate].
Qed.

Lemma of_uint63_scaled (q : int) :
  0 <= Uint63.to_Z q <= 256 -> fscaled (of_uint63 q) = Some (Uint63.to_Z q * 2 ^ 1074).
Proof.
  intros Hq. unfold fscaled. rewrite of_uint63_spec. apply small_int_scaled. exact Hq.
Qed.

Lemma weighted_bounds (r g b : Z) :
  0 <= r <= 255 -> 0 <= g <= 255 -> 0 <= b <= 255 ->
  0 <= weighted r g b <= 2549745 /\ 0 <= exact_luminance r g b <= 254.
Proof.
  intros Hr Hg Hb. unfold exact_luminance, weighted.
  assert (H : 0 <= 2989 * r + 5870 * g + 1140 * b <= 2549745) by lia.
  split; [exact H | ]. split.
  - apply Z.div_pos; lia.
  - assert ((2989 * r + 5870 * g + 1140 * b) / 10000 < 255)
      by (apply Z.div_lt_upper_bound; lia).
    lia.
Qed.

Lemma luminance_ok_sound (r g b : Z) :
  0 <= r <= 255 -> 0 <= g <= 255 -> 0 <= b <= 255 ->
  luminance_ok (r, Uint63.of_Z r, float_of_int r) (g, Uint63.of_Z g, float_of_int g)
    (b, Uint63.of_Z b, float_of_int b) = true ->
  exists y, luminance r g b = Ret y /\ 0 <= y <= 255 /\
    (y = exact_luminance r g b \/
     (weighted r g b mod 10000 = 0 /\ y = exact_luminance r g b - 1)).
Proof.
  intros Hr Hg Hb. unfold luminance_ok. cbn [fst snd].
  set (v := luminance_float (float_of_int r) (float_of_int g) (float_of_int b)).
  change (luminance r g b) with (int_of_float v).
  set (s := (2989 * Uint63.of_Z r + 5870 * Uint63.of_Z g + 1140 * Uint63.of_Z b)%uint63).
  destruct (weighted_bounds r g b Hr Hg Hb) as [HS HQ].
  assert (Hof : forall z, 0 <= z <= 255 -> Uint63.to_Z (Uint63.of_Z z) = z).
  { intros z Hz. rewrite Uint63.of_Z_spec. apply Z.mod_small.
    change wB with 9223372036854775808. lia. }
  assert (Hs : Uint63.to_Z s = weighted r g b).
  { unfold s, weighted. rewrite !Uint63.add_spec, !Uint63.mul_spec, !Hof by assumption.
    change (Uint63.to_Z 2989) with 2989. change (Uint63.to_Z 5870) with 5870.
    change (Uint63.to_Z 1140) with 1140. change wB with 9223372036854775808.
    rewrite (Z.mod_small (2989 * r)), (Z.mod_small (5870 * g)), (Z.mod_small (1140 * b)) by lia.
    rewrite (Z.mod_small (2989 * r + 5870 * g)) by lia.
    apply Z.mod_small. lia. }
  assert (Hq : Uint63.to_Z (s / 10000)%uint63 = exact_luminance r g b).
  { rewrite Uint63.div_spec, Hs. reflexivity. }
  set (q := (s / 10000)%uint63) in *.
  assert (Hfq : fscaled (of_uint63 q) = Some (exact_luminance r g b * 2 ^ 1074)).
  { rewrite <- Hq. apply of_uint63_scaled. lia. }
  intros Hok. apply orb_prop in Hok as [Hok | Hok].
  - apply andb_prop in Hok as [Hlo Hhi].
    assert (Hq1 : Uint63.to_Z (q + 1)%uint63 = exact_luminance r g b + 1).
    { rewrite Uint63.add_spec, Hq. change (Uint63.to_Z 1) with 1.
      apply Z.mod_small. change wB with 9223372036854775808. lia. }
    assert (Hfq1 : fscaled (of_uint63 (q + 1)%uint63)
                   = Some ((exact_luminance r g b + 1) * 2 ^ 1074)).
    { rewrite <- Hq1. apply of_uint63_scaled. lia. }
    destruct (FloatFacts.between_finite_lt _ v _ _ _ Hfq Hfq1 Hlo Hhi) as (c & Hc & Hbounds).
    exists (exact_luminance r g b).
    rewrite (FloatFacts.int_of_float_fscaled v c Hc).
    rewrite (FloatFacts.quot_scaled_unit (exact_luminance r g b) c) by (lia || exact Hbounds).
    split; [reflexivity | ]. split; [lia | left; reflexivity].
  - apply andb_prop in Hok as [Hok Hhi]. apply andb_prop in Hok as [Hok Hlo].
    apply andb_prop in Hok as [Hmod Hge].
    apply Uint63.leb_spec in Hge. change (Uint63.to_Z 1) with 1 in Hge. rewrite Hq in Hge.
    apply Uint63.eqb_spec in Hmod.
    assert (Hm : weighted r g b mod 10000 = 0).
    { rewrite <- Hs. change 10000 with (Uint63.to_Z 10000). rewrite <- Uint63.mod_spec, Hmod.
      reflexivity. }
    assert (Hq1 : Uint63.to_Z (q - 1)%uint63 = exact_luminance r g b - 1).
    { rewrite Uint63.sub_spec, Hq. change (Uint63.to_Z 1) with 1.
      apply Z.mod_small. change wB with 9223372036854775808. lia. }
    assert (Hfq1 : fscaled (of_uint63 (q - 1)%uint63)
                   = Some ((exact_luminance r g b - 1) * 2 ^ 1074)).
    { rewrite <- Hq1. apply of_uint63_scaled. lia. }
    replace (exact_luminance r g b * 2 ^ 1074)
      with ((exact_luminance r g b - 1 + 1) * 2 ^ 1074) in Hfq by (f_equal; lia).
    destruct (FloatFacts.between_finite_lt _ v _ _ _ Hfq1 Hfq Hlo Hhi) as (c & Hc & Hbounds).
    exists (exact_luminance r g b - 1).
    rewrite (FloatFacts.int_of_float_fscaled v c Hc).
    rewrite (FloatFacts.quot_scaled_unit (exact_luminance r g b - 1) c) by (lia || exact Hbounds).
    split; [reflexivity | ]. split; [lia | right; split; [exact Hm | reflexivity]].
Qed.

(** All [256^3] pixels, on primitive integers and floats. *)
Lemma luminance_check_ok :
  forallb (fun r => forallb (fun g => forallb (fun b => luminance_ok r g b)
    channel_table) channel_table) channel_table = true.
Proof. vm_compute. reflexivity. Qed.

(** On 8-bit channels [luminance] returns, stays 8-bit, and is the exact
    luminance, or one less where the exact weighted sum is an integer. *)
Lemma luminance_8bit (r g b : Z) :
  0 <= r <= 255 -> 0 <= g <= 255 -> 0 <= b <= 255 ->
  exists y, luminance r g b = Ret y /\ 0 <= y <= 255 /\
    (y = exact_luminance r g b \/
     (weighted r g b mod 10000 = 0 /\ y = exact_luminance r g b - 1)).
Proof.
  intros Hr Hg Hb. apply luminance_ok_sound; try assumption.
  pose proof (proj1 (forallb_forall _ _) luminance_check_ok _ (channel_entry_in r Hr)) as H1.
  cbv beta in H1.
  pose proof (proj1 (forallb_forall _ _) H1 _ (channel_entry_in g Hg)) as H2.
  cbv beta in H2.
  exact (proj1 (forallb_forall _ _) H2 _ (channel_entry_in b Hb)).
Qed.

(** ** The from-scratch [binary_threshold] and [to_grayscale] *)

Lemma ret_bind {A B} (a : A) (k : A -> M B) (h : Heap) : (mret a ≫= k) h = k a h.
Proof. reflexivity. Qed.

Lemma in_bounds_dims (im img : Image) (x y : Z) :
  width im = width img -> height im = height img ->
  in_bounds im x y = in_bounds img x y.
Proof. intros Hw Hh. unfold in_bounds. rewrite Hw, Hh. reflexivity. Qed.

Lemma getpixel_bind {B} (l : nat) (x y : Z) (k : Pixel -> M B) (h : Heap) (img : Image) :
  h !! l = Some img -> in_bounds img x y = true ->
  (getpixel l x y ≫= k) h = k (data img x y) h.
Proof.
  intros Hl Hb. unfold getpixel. rewrite bind_unfold, load_bind, Hl, Hb. reflexivity.
Qed.

Lemma putpixel_eq (l : nat) (x y : Z) (p : Pixel) (h : Heap) (img : Image) :
  h !! l = Some img -> in_bounds img x y = true ->
  putpixel l x y p h = (<[l := set_data img x y p]> h, Ret tt).
Proof.
  intros Hl Hb. unfold putpixel. rewrite load_bind, Hl, Hb. reflexivity.
Qed.

Section Scratch.
Context `{pil : PIL}.

Lemma binary_threshold_scratch (h : Heap) (l : nat) (img : Image) (threshold : Z) :
  h !! l = Some img -> is_rgb img ->
  exists img',
    binary_threshold (PyImg l) threshold false h = (<[l := img']> h, Ret (PyImg l))
    /\ width img' = width img /\ height img' = height img
    /\ forall x y, in_bounds img x y = true ->
         data img' x y = threshold_pixel threshold (data img x y).
Proof.
  intros Hl Hrgb. unfold binary_threshold. cbn [as_image].
  rewrite ret_bind, load_bind, Hl.
  set (body := fun row col : Z =>
    p ← getpixel l row col;
    gray_value ← lift (channel p 0);
    if gray_value <? threshold then putpixel l row col (RGB 0 0 0)
    else putpixel l row col (RGB 255 255 255)).
  destruct (inplace_loop (threshold_pixel threshold) body l h img Hl)
    as (img' & Eloop & Hw & Hh & Hd).
  - intros row col hh im Him Hw Hh Hb Hsame. unfold body.
    rewrite (getpixel_bind l row col _ hh im Him)
      by (rewrite (in_bounds_dims im img) by assumption; exact Hb).
    rewrite Hsame. destruct (Hrgb row col Hb) as (r & g & b & ->).
    rewrite lift_bind. cbn [channel threshold_pixel].
    rewrite <- (in_bounds_dims im img row col Hw Hh) in Hb.
    destruct (r <? threshold); apply putpixel_eq; assumption.
  - exists img'. split; [ | auto].
    etransitivity; [apply (bind_ret _ (fun _ => mret (PyImg l)) _ _ _ Eloop) | reflexivity].
Qed.

Lemma to_grayscale_scratch (h : Heap) (l : nat) (img : Image) :
  h !! l = Some img -> channels_in_range img ->
  exists img',
    to_grayscale (PyImg l) false h = (<[l := img']> h, Ret (PyImg l))
    /\ width img' = width img /\ height img' = height img
    /\ forall x y, in_bounds img x y = true -> data img' x y = gray_pixel (data img x y).
Proof.
  intros Hl Hrange. unfold to_grayscale. cbn [as_image].
  rewrite ret_bind, load_bind, Hl.
  set (body := fun row col : Z =>
    p ← getpixel l row col;
    '(red, green, blue) ← lift (unpack3 p);
    gray ← lift (luminance red green blue);
    putpixel l row col (RGB gray gray gray)).
  destruct (inplace_loop gray_pixel body l h img Hl) as (img' & Eloop & Hw & Hh & Hd).
  - intros row col hh im Him Hw Hh Hb Hsame. unfold body.
    rewrite (getpixel_bind l row col _ hh im Him)
      by (rewrite (in_bounds_dims im img) by assumption; exact Hb).
    rewrite Hsame. destruct (Hrange row col Hb) as (r & g & b & -> & Hr & Hg & Hbl).
    rewrite lift_bind. cbn [unpack3 gray_pixel].
    destruct (luminance_8bit r g b Hr Hg Hbl) as (y & -> & _).
    rewrite lift_bind.
    rewrite <- (in_bounds_dims im img row col Hw Hh) in Hb.
    apply putpixel_eq; assumption.
  - exists img'. split; [ | auto].
    etransitivity; [apply (bind_ret _ (fun _ => mret (PyImg l)) _ _ _ Eloop) | reflexivity].
Qed.

End Scratch.

(** ** The from-scratch resamplers: what they leave alone, what they return *)

Lemma bind_inv {A B} (m : M A) (k : A -> M B) (h h' : Heap) (b : B) :
  (m ≫= k) h = (h', Ret b) -> exists a h1, m h = (h1, Ret a) /\ k a h1 = (h', Ret b).
Proof.
  rewrite bind_unfold. destruct (m h) as [h1 [a | e]]; [eauto | discriminate].
Qed.

Lemma as_image_inv (image : PyVal) (h h1 : Heap) (l : nat) :
  as_image image h = (h1, Ret l) -> image = PyImg l /\ h1 = h.
Proof. destruct image; cbn; intros E; inversion E; auto. Qed.

Lemma load_inv (l : nat) (h h1 : Heap) (img : Image) :
  load l h = (h1, Ret img) -> h !! l = Some img /\ h1 = h.
Proof. unfold load. destruct (h !! l); intros E; inversion E; auto. Qed.

Lemma lift_inv {A} (r : Res A) (h h1 : Heap) (a : A) :
  lift r h = (h1, Ret a) -> r = Ret a /\ h1 = h.
Proof. unfold lift. intros E; inversion E; auto. Qed.

Lemma alloc_inv (img : Image) (h h1 : Heap) (l : nat) :
  alloc img h = (h1, Ret l) -> l = length h /\ h1 = h ++ [img].
Proof. unfold alloc. intros E; inversion E; auto. Qed.

Lemma keeps_putpixel_fresh (h : Heap) (x y : Z) (p : Pixel) :
  preserves (keeps h) (putpixel (length h) x y p).
Proof.
  apply preserves_putpixel. intros h' img' Hk _ _ l img Hl.
  rewrite list_lookup_insert_ne; [apply Hk; exact Hl | ].
  apply lookup_lt_Some in Hl. lia.
Qed.

Lemma channels_in_range_set (im : Image) (x y r g b : Z) :
  channels_in_range im ->
  0 <= r <= 255 -> 0 <= g <= 255 -> 0 <= b <= 255 ->
  channels_in_range (set_data im x y (RGB r g b)).
Proof.
  intros Him Hr Hg Hb x' y' B. cbn [set_data data].
  destruct ((x' =? x) && (y' =? y)).
  - exists r, g, b. auto.
  - apply Him. exact B.
Qed.

Lemma fresh_in_range_putpixel (h : Heap) (x y r g b : Z) :
  0 <= r <= 255 -> 0 <= g <= 255 -> 0 <= b <= 255 ->
  preserves (fun h' => keeps h h' /\ fresh_in_range h h') (putpixel (length h) x y (RGB r g b)).
Proof.
  intros Hr Hg Hb. apply preserves_putpixel.
  intros h' img' [Hk (im & Him & Hrange)] Hl' _. split.
  - intros l img Hl. rewrite list_lookup_insert_ne; [apply Hk; exact Hl | ].
    apply lookup_lt_Some in Hl. lia.
  - exists (set_data img' x y (RGB r g b)). split.
    + apply list_lookup_insert_eq. eapply lookup_lt_Some. exact Hl'.
    + rewrite Him in Hl'. injection Hl' as <-.
      apply channels_in_range_set; assumption.
Qed.

(** [int] of a clipped float is an 8-bit value. *)
Lemma clip_range (v : float) (z : Z) :
  int_of_float (np_clip v 0 255) = Ret z -> 0 <= z <= 255.
Proof.
  assert (H0 : fscaled 0%float = Some (0 * 2 ^ 1074)) by (vm_compute; reflexivity).
  assert (H255 : fscaled 255%float = Some (255 * 2 ^ 1074)) by (vm_compute; reflexivity).
  assert (I0 : int_of_float 0 = Ret 0) by (vm_compute; reflexivity).
  assert (I255 : int_of_float 255 = Ret 255) by (vm_compute; reflexivity).
  unfold np_clip.
  destruct (PrimFloat.ltb v 0) eqn:Elo.
  - rewrite I0. intros [= <-]. lia.
  - destruct (PrimFloat.ltb 255 v) eqn:Ehi.
    + rewrite I255. intros [= <-]. lia.
    + intros Hv. destruct (FloatFacts.int_of_float_finite v z Hv) as [c Hc].
      rewrite (FloatFacts.int_of_float_fscaled v c Hc) in Hv. injection Hv as <-.
      rewrite (FloatFacts.ltb_fscaled v 0 _ _ Hc H0) in Elo.
      rewrite (FloatFacts.ltb_fscaled 255 v _ _ H255 Hc) in Ehi.
      apply Z.ltb_ge in Elo. apply Z.ltb_ge in Ehi.
      apply FloatFacts.quot_scaled_bounds. lia.
Qed.

Lemma clipped_pixel_range (v : Vec3) (p : Pixel) :
  clipped_pixel v = Ret p ->
  exists r g b, p = RGB r g b /\ 0 <= r <= 255 /\ 0 <= g <= 255 /\ 0 <= b <= 255.
Proof.
  destruct v as [[a b] c]. unfold clipped_pixel.
  destruct (int_of_float (np_clip a 0 255)) as [r | ] eqn:Er; [ | discriminate].
  destruct (int_of_float (np_clip b 0 255)) as [g | ] eqn:Eg; [ | discriminate].
  destruct (int_of_float (np_clip c 0 255)) as [bl | ] eqn:Eb; [ | discriminate].
  cbn. intros [= <-]. exists r, g, bl.
  split; [reflexivity | ]. split; [ | split]; eapply clip_range; eassumption.
Qed.

Lemma keeps_refl (h : Heap) : keeps h h.
Proof. intros l img Hl. exact Hl. Qed.

Lemma keeps_alloc (h : Heap) (img : Image) : keeps h (h ++ [img]).
Proof. intros l im Hl. apply lookup_app_l_Some. exact Hl. Qed.

Lemma Image_new_in_range `{pil : PIL} (w h : Z) (img : Image) :
  Image_new w h = Ret img -> width img = w /\ height img = h /\ channels_in_range img.
Proof.
  unfold Image_new. destruct ((w <? 0) || (h <? 0)); [discriminate | ].
  destruct ((INT_MAX <? w) || (INT_MAX <? h)); [discriminate | ].
  destruct (((0 <? w) || (0 <? h)) && negb (Image_storage w h)); [discriminate | ].
  intros [= <-]. cbn. repeat split; try reflexivity.
  intros x y _. exists 0, 0, 0. cbn. repeat split; lia.
Qed.

Section Resamplers.
Context `{pil : PIL} `{libm : LibM}.

(** The from-scratch bilinear resampler writes to its own new image
    only: every image that existed before the call is as it was. *)
Lemma bilinear_scratch_keeps (h : Heap) (image : PyVal) (scale_factor : float) :
  keeps h (fst (bilinear_filter image scale_factor false h)).
Proof.
  unfold bilinear_filter. cbv zeta.
  destruct image as [ | l | s | f]; try apply keeps_refl.
  cbn [as_image]. rewrite ret_bind, load_bind.
  destruct (h !! l) as [img | ]; [ | apply keeps_refl].
  rewrite lift_bind. destruct (int_of_float _) as [new_width | ]; [ | apply keeps_refl].
  rewrite lift_bind. destruct (int_of_float _) as [new_height | ]; [ | apply keeps_refl].
  rewrite lift_bind. destruct (Image_new _ _) as [resized | ]; [ | apply keeps_refl].
  rewrite bind_unfold. cbn [alloc].
  refine (preserves_bind (keeps h) _ _ _ _ (h ++ [resized]) (keeps_alloc h resized)).
  - apply preserves_for_each. intros row _.
    apply preserves_for_each. intros col _.
    do 4 (apply preserves_lift_bind; intros ? _).
    do 4 (apply preserves_getpixel_bind; intros ?).
    apply preserves_lift_bind; intros ? _.
    apply keeps_putpixel_fresh.
  - intros _. apply preserves_ret.
Qed.

(** ... and what it returns is the object it was given. *)
Lemma bilinear_scratch_result (h h' : Heap) (image v : PyVal) (scale_factor : float) :
  bilinear_filter image scale_factor false h = (h', Ret v) -> v = image.
Proof.
  unfold bilinear_filter. cbv zeta. intros H.
  apply bind_inv in H as (l & h1 & _ & H).
  apply bind_inv in H as (img & h2 & _ & H).
  apply bind_inv in H as (nw & h3 & _ & H).
  apply bind_inv in H as (nh & h4 & _ & H).
  apply bind_inv in H as (resized & h5 & _ & H).
  apply bind_inv in H as (r & h6 & _ & H).
  apply bind_inv in H as (u & h7 & _ & H).
  inversion H. reflexivity.
Qed.

(** The from-scratch bicubic resampler: the old images are as they were,
    and the new image holds 8-bit RGB pixels at every stage of the loops. *)
Lemma bicubic_scratch_keeps (h : Heap) (image : PyVal) (scale_factor : float) :
  let h' := fst (bicubic_filter image scale_factor false h) in
  keeps h h' /\
  (forall v, snd (bicubic_filter image scale_factor false h) = Ret v -> fresh_in_range h h').
Proof.
  unfold bicubic_filter. cbv zeta.
  destruct image as [ | l | s | f];
    try (split; [apply keeps_refl | cbn; intros v Hv; discriminate]).
  cbn [as_image]. rewrite ret_bind, load_bind.
  destruct (h !! l) as [img | ];
    [ | split; [apply keeps_refl | cbn; intros v Hv; discriminate]].
  rewrite lift_bind. destruct (int_of_float _) as [new_width | ];
    [ | split; [apply keeps_refl | cbn; intros v Hv; discriminate]].
  rewrite lift_bind. destruct (int_of_float _) as [new_height | ];
    [ | split; [apply keeps_refl | cbn; intros v Hv; discriminate]].
  rewrite lift_bind. destruct (Image_new _ _) as [resized | ] eqn:Enew;
    [ | split; [apply keeps_refl | cbn; intros v Hv; discriminate]].
  rewrite bind_unfold. cbn [alloc].
  apply Image_new_in_range in Enew as (_ & _ & Hblack).
  match goal with
  | |- context [(?m ≫= ?k) (h ++ [resized])] =>
      assert (Hinv : keeps h (fst ((m ≫= k) (h ++ [resized])))
                     /\ fresh_in_range h (fst ((m ≫= k) (h ++ [resized]))))
  end.
  { refine (preserves_bind (fun h' => keeps h h' /\ fresh_in_range h h') _ _ _ _
              (h ++ [resized]) _).
    - apply preserves_for_each. intros row _.
      apply preserves_for_each. intros col _.
      do 4 (apply preserves_lift_bind; intros ? _).
      apply preserves_load_bind. intros original h0 Hh0 _.
      refine (preserves_lift_bind (fun h' => keeps h h' /\ fresh_in_range h h')
                _ _ _ h0 Hh0).
      intros pixel Hpixel.
      apply clipped_pixel_range in Hpixel as (r & g & b & -> & Hr & Hg & Hb).
      apply fresh_in_range_putpixel; assumption.
    - intros _. apply preserves_ret.
    - split; [apply keeps_alloc | ].
      exists resized. split; [apply list_lookup_middle; reflexivity | exact Hblack]. }
  destruct Hinv as [Hk Hf]. split; [exact Hk | intros _ _; exact Hf].
Qed.

(** ... and what it returns is the new image. *)
Lemma bicubic_scratch_result (h h' : Heap) (image v : PyVal) (scale_factor : float) :
  bicubic_filter image scale_factor false h = (h', Ret v) ->
  v = PyImg (length h) /\ exists l, image = PyImg l.
Proof.
  unfold bicubic_filter. cbv zeta. intros H.
  apply bind_inv in H as (l & h1 & E1 & H). apply as_image_inv in E1 as [-> ->].
  apply bind_inv in H as (img & h2 & E2 & H). apply load_inv in E2 as [_ ->].
  apply bind_inv in H as (nw & h3 & E3 & H). apply lift_inv in E3 as [_ ->].
  apply bind_inv in H as (nh & h4 & E4 & H). apply lift_inv in E4 as [_ ->].
  apply bind_inv in H as (resized & h5 & E5 & H). apply lift_inv in E5 as [_ ->].
  apply bind_inv in H as (r & h6 & E6 & H). apply alloc_inv in E6 as [-> ->].
  apply bind_inv in H as (u & h7 & _ & H).
  inversion H. eauto.
Qed.

(** The fast resamplers hand back the value of [image.thumbnail(...)]. *)
Lemma thumbnail_result (h : Heap) (image : PyVal) (size : Z * Z) (resample : Resample) :
  snd (thumbnail image size resample h) = Ret PyNone
  \/ raised (snd (thumbnail image size resample h)).
Proof.
  unfold thumbnail, raised.
  destruct image as [ | l | s | f]; try (right; eexists; reflexivity).
  cbn [as_image]. rewrite ret_bind, load_bind.
  destruct (h !! l) as [img | ]; [ | right; eexists; reflexivity].
  rewrite lift_bind.
  destruct (Image_thumbnail size resample img); [left | right; eexists]; reflexivity.
Qed.

Lemma bilinear_fast_result (h : Heap) (image : PyVal) (scale_factor : float) :
  snd (bilinear_filter image scale_factor true h) = Ret PyNone
  \/ raised (snd (bilinear_filter image scale_factor true h)).
Proof.
  unfold bilinear_filter. rewrite bind_unfold.
  destruct (thumbnail_result h image (300, 300) BILINEAR) as [E | [e E]];
    destruct (thumbnail image (300, 300) BILINEAR h) as [h1 [v | e']]; cbn [snd] in E;
    try discriminate.
  - injection E as ->. left. reflexivity.
  - right. eexists. reflexivity.
Qed.

(** In fast mode the bicubic resampler never returns: [resized_img] has no
    value at line 197. *)
Lemma bicubic_fast_raises (h : Heap) (image : PyVal) (scale_factor : float) :
  raised (snd (bicubic_filter image scale_factor true h)).
Proof.
  unfold bicubic_filter, raised. rewrite bind_unfold.
  destruct (thumbnail image (300, 300) BICUBIC h) as [h1 [v | e]]; eexists; reflexivity.
Qed.

Lemma bicubic_fast_on_image (h : Heap) (l : nat) (img small : Image) (scale_factor : float) :
  h !! l = Some img -> Image_thumbnail (300, 300) BICUBIC img = Ret small ->
  bicubic_filter (PyImg l) scale_factor true h = (<[l := small]> h, Raise UnboundLocalError).
Proof.
  intros Hl Et. unfold bicubic_filter, thumbnail. cbn [as_image].
  rewrite bind_unfold, ret_bind, load_bind, Hl, lift_bind, Et. reflexivity.
Qed.

(** Handed [None], the fast bicubic resampler raises. *)
Lemma bicubic_fast_none (h : Heap) (scale_factor : float) :
  bicubic_filter PyNone scale_factor true h = (h, Raise AttributeError).
Proof. reflexivity. Qed.

End Resamplers.

(** ** The fast [to_grayscale] and [binary_threshold] build a new image *)

Lemma to_grayscale_fast_keeps `{pil : PIL} (h : Heap) (image : PyVal) :
  keeps h (fst (to_grayscale image true h)).
Proof.
  unfold to_grayscale.
  destruct image as [ | l | s | f]; try apply keeps_refl.
  cbn [as_image]. rewrite ret_bind, load_bind.
  destruct (h !! l) as [img | ]; [ | apply keeps_refl].
  rewrite lift_bind. destruct (Image_convert_L img); [ | apply keeps_refl].
  apply keeps_alloc.
Qed.

Lemma binary_threshold_fast_keeps `{pil : PIL} (h : Heap) (image : PyVal) (threshold : Z) :
  keeps h (fst (binary_threshold image threshold true h)).
Proof.
  unfold binary_threshold.
  destruct image as [ | l | s | f]; try apply keeps_refl.
  cbn [as_image]. rewrite ret_bind, load_bind.
  destruct (h !! l) as [img | ]; [ | apply keeps_refl].
  rewrite lift_bind. destruct (Image_point_1 _ img); [ | apply keeps_refl].
  apply keeps_alloc.
Qed.

Lemma to_grayscale_fast_result `{pil : PIL} (h h' : Heap) (image v : PyVal) :
  to_grayscale image true h = (h', Ret v) -> v = PyImg (length h).
Proof.
  unfold to_grayscale. intros H.
  apply bind_inv in H as (l & h1 & E1 & H). apply as_image_inv in E1 as [_ ->].
  apply bind_inv in H as (img & h2 & E2 & H). apply load_inv in E2 as [_ ->].
  apply bind_inv in H as (img' & h3 & E3 & H). apply lift_inv in E3 as [_ ->].
  apply bind_inv in H as (l' & h4 & E4 & H). apply alloc_inv in E4 as [-> ->].
  inversion H. reflexivity.
Qed.

Lemma binary_threshold_fast_result `{pil : PIL} (h h' : Heap) (image v : PyVal)
    (threshold : Z) :
  binary_threshold image threshold true h = (h', Ret v) -> v = PyImg (length h).
Proof.
  unfold binary_threshold. intros H.
  apply bind_inv in H as (l & h1 & E1 & H). apply as_image_inv in E1 as [_ ->].
  apply bind_inv in H as (img & h2 & E2 & H). apply load_inv in E2 as [_ ->].
  apply bind_inv in H as (img' & h3 & E3 & H). apply lift_inv in E3 as [_ ->].
  apply bind_inv in H as (l' & h4 & E4 & H). apply alloc_inv in E4 as [-> ->].
  inversion H. reflexivity.
Qed.

Lemma gray_pixel_in_range (r g b : Z) :
  0 <= r <= 255 -> 0 <= g <= 255 -> 0 <= b <= 255 ->
  exists y, gray_pixel (RGB r g b) = RGB y y y /\ 0 <= y <= 255.
Proof.
  intros Hr Hg Hb. destruct (luminance_8bit r g b Hr Hg Hb) as (y & E & Hy & _).
  exists y. cbn [gray_pixel]. rewrite E. auto.
Qed.

Lemma channels_in_range_rgb (img : Image) : channels_in_range img -> is_rgb img.
Proof.
  intros H x y B. destruct (H x y B) as (r & g & b & E & _). eauto.
Qed.

(** * The properties of the specification *)

(** ** C3: grayscale *)

(** C3, as stated, fails: the from-scratch grayscale turns the pure green
    pixel (0,255,0) into luminance 149, not 150 (0.587 * 255 = 149.685). *)
Lemma grayscale_of_green_is_not_150 :
  let run := @to_grayscale PIL_absent (PyImg 0%nat) false [uniform 1 1 (RGB 0 255 0)] in
  snd run = Ret (PyImg 0%nat)
  /\ (fun img => data img 0 0) <$> (fst run !! 0%nat) = Some (RGB 149 149 149)
  /\ (fun img => data img 0 0) <$> (fst run !! 0%nat) <> Some (RGB 150 150 150).
Proof. vm_compute. repeat split; discriminate. Qed.

(** The double-precision sum can fall just short of an integer that the
    exact sum reaches: (0,72,24) has exact luminance 45.0 and gets 44. *)
Lemma luminance_one_short : luminance 0 72 24 = Ret 44 /\ exact_luminance 0 72 24 = 45.
Proof. vm_compute. split; reflexivity. Qed.

(** C3 (amended): on an RGB image with 8-bit channels the from-scratch
    grayscale returns the image it was given with every pixel (R,G,B)
    replaced by (Y,Y,Y), where Y is [int] of the double-precision sum
    0.2989*R + 0.5870*G + 0.1140*B; Y is the floor of the exact sum, or one
    less at a pixel whose exact sum is an integer.  In particular (255,0,0)
    gives 76, (0,255,0) gives 149 and (0,0,255) gives 29. *)
Theorem to_grayscale_luminance `{pil : PIL} (h : Heap) (l : nat) (img : Image) :
  h !! l = Some img -> channels_in_range img ->
  (exists img',
     to_grayscale (PyImg l) false h = (<[l := img']> h, Ret (PyImg l))
     /\ width img' = width img /\ height img' = height img
     /\ forall x y r g b, in_bounds img x y = true -> data img x y = RGB r g b ->
          exists Y, luminance r g b = Ret Y /\ data img' x y = RGB Y Y Y
            /\ (Y = exact_luminance r g b
                \/ (weighted r g b mod 10000 = 0 /\ Y = exact_luminance r g b - 1)))
  /\ luminance 255 0 0 = Ret 76 /\ luminance 0 255 0 = Ret 149 /\ luminance 0 0 255 = Ret 29.
Proof.
  intros Hl Hrange. split; [ | vm_compute; repeat split; reflexivity].
  destruct (to_grayscale_scratch h l img Hl Hrange) as (img' & E & Hw & Hh & Hd).
  exists img'. split; [exact E | ]. split; [exact Hw | ]. split; [exact Hh | ].
  intros x y r g b B Hp. destruct (Hrange x y B) as (r' & g' & b' & Hp' & Hr & Hg & Hb).
  rewrite Hp in Hp'. injection Hp' as <- <- <-.
  destruct (luminance_8bit r g b Hr Hg Hb) as (Y & EY & _ & Hexact).
  exists Y. split; [exact EY | ]. split; [ | exact Hexact].
  rewrite (Hd x y B), Hp. cbn [gray_pixel]. rewrite EY. reflexivity.
Qed.

Lemma to_grayscale_luminance_witness :
  exists img',
    @to_grayscale PIL_absent (PyImg 0%nat) false [uniform 2 1 (RGB 255 0 0)]
    = (<[0%nat := img']> [uniform 2 1 (RGB 255 0 0)], Ret (PyImg 0%nat))
    /\ width img' = 2.
Proof.
  destruct (@to_grayscale_luminance PIL_absent [uniform 2 1 (RGB 255 0 0)] 0%nat
              (uniform 2 1 (RGB 255 0 0)) eq_refl) as [(img' & E & Hw & _) _].
  - intros x y _. exists 255, 0, 0. cbn. repeat split; lia.
  - exists img'. split; [exact E | exact Hw].
Defined.

(** ** C8: threshold *)



(** ** C1: what the from-scratch bilinear resampler returns *)

(** C1 (the code departs from it): the from-scratch bilinear resampler
    builds the resized image and then returns the image it was given.  On
    the 2 x 2 [photo] with factor 2 the 4 x 4 result sits on the heap, and
    the value returned is the 2 x 2 input, untouched; for every input the
    value returned is the input object. *)
Theorem bilinear_filter_returns_its_input :
  (forall (pil : PIL) (h h' : Heap) (image v : PyVal) (scale_factor : float),
     bilinear_filter image scale_factor false h = (h', Ret v) -> v = image /\ keeps h h')
  /\ (let run := @bilinear_filter PIL_absent (PyImg 0%nat) 2 false [photo] in
      snd run = Ret (PyImg 0%nat)
      /\ (fun img => (width img, height img)) <$> (fst run !! 0%nat) = Some (2, 2)
      /\ (fun img => (width img, height img)) <$> (fst run !! 1%nat) = Some (4, 4)
      /\ (fun img => data img 1 1) <$> (fst run !! 1%nat) = Some (RGB 50 50 50)).
Proof.
  split.
  - intros pil h h' image v scale_factor E. split.
    + eapply bilinear_scratch_result. exact E.
    + pose proof (bilinear_scratch_keeps h image scale_factor) as K.
      rewrite E in K. exact K.
  - vm_compute. repeat split; reflexivity.
Qed.

(** ** C2: the stages as the pipeline calls them *)

(** C2 (the code departs from it): lines 251-254 run the four stages in
    their fast mode; the third rebinds [image] to the [None] that
    [thumbnail] returns, so the fourth raises on it.  Whatever PIL does,
    and for every input image, the pipeline ends in an exception, and so
    does the from-scratch branch of [get_text_from_image]. *)
Theorem preprocess_always_raises `{pil : PIL} `{libm : LibM} `{sv : Services}
    (image : PyVal) (h : Heap) :
  (exists h' e, preprocess image h = (h', Raise e))
  /\ (exists h' e, get_text_from_image image false h = (h', Raise e)).
Proof.
  assert (P : exists h' e, preprocess image h = (h', Raise e)).
  { unfold preprocess. rewrite bind_unfold.
    destruct (to_grayscale image true h) as [h1 [v1 | e1]]; [ | eauto].
    rewrite bind_unfold.
    destruct (binary_threshold v1 default_threshold true h1) as [h2 [v2 | e2]]; [ | eauto].
    rewrite bind_unfold.
    destruct (bilinear_fast_result h2 v2 (float_of_int 2)) as [E | [e E]];
      destruct (bilinear_filter v2 (float_of_int 2) true h2) as [h3 [v3 | e3]];
      cbn [snd] in E; try discriminate; [ | eauto].
    injection E as ->. rewrite bind_unfold, bicubic_fast_none. eauto. }
  split; [exact P | ].
  destruct P as (h' & e & E). exists h', e.
  unfold get_text_from_image, ask_model.
  apply bind_raise. apply bind_raise. exact E.
Qed.

(** With a PIL whose methods all succeed the exception is the
    [AttributeError] of [None.thumbnail], raised by the fourth stage. *)
Lemma preprocess_attribute_error :
  snd (@preprocess PIL_identity LibM_product (PyImg 0%nat) [uniform 1 1 (RGB 255 255 255)])
  = Raise AttributeError.
Proof. vm_compute. reflexivity. Qed.

(** Called on their own, the from-scratch grayscale and thresholder need
    tuple pixels: on a single-band image the first pixel raises. *)
Lemma scratch_stages_need_tuples :
  snd (@to_grayscale PIL_absent (PyImg 0%nat) false [uniform 1 1 (Lum 200)]) = Raise TypeError
  /\ snd (@binary_threshold PIL_absent (PyImg 0%nat) 128 false [uniform 1 1 (Lum 200)])
     = Raise TypeError.
Proof. vm_compute. split; reflexivity. Qed.

(** ** C5: the two modes of the resamplers *)

(** C5 (the code departs from it): in fast mode the bilinear resampler
    returns [None] (or raises), never an image, and the bicubic resampler
    never returns at all: after [thumbnail] it raises [UnboundLocalError]
    at its [return resized_img]; in from-scratch mode both return an
    image.  A caller cannot use one mode in place of the other. *)
Theorem fast_resamplers_return_no_image :
  (forall (pil : PIL) (libm : LibM) (image : PyVal) (scale_factor : float) (h : Heap) (l : nat),
     snd (bilinear_filter image scale_factor true h) <> Ret (PyImg l)
     /\ (exists e, snd (bicubic_filter image scale_factor true h) = Raise e))
  /\ (forall (pil : PIL) (libm : LibM) (scale_factor : float) (h : Heap) (l : nat)
       (img small : Image),
       h !! l = Some img -> Image_thumbnail (300, 300) BICUBIC img = Ret small ->
       bicubic_filter (PyImg l) scale_factor true h
       = (<[l := small]> h, Raise UnboundLocalError))
  /\ snd (@bilinear_filter PIL_identity (PyImg 0%nat) 2 true [photo]) = Ret PyNone
  /\ snd (@bilinear_filter PIL_identity (PyImg 0%nat) 2 false [photo]) = Ret (PyImg 0%nat)
  /\ snd (@bicubic_filter PIL_identity LibM_product (PyImg 0%nat) 2 true [photo])
     = Raise UnboundLocalError
  /\ snd (@bicubic_filter PIL_identity LibM_product (PyImg 0%nat) 2 false [photo])
     = Ret (PyImg 1%nat).
Proof.
  split; [ | split; [ | vm_compute; repeat split; reflexivity]].
  - intros pil libm image scale_factor h l. split.
    + destruct (bilinear_fast_result h image scale_factor) as [E | [e E]];
        rewrite E; discriminate.
    + apply bicubic_fast_raises.
  - intros pil libm scale_factor h l img small Hl Et.
    exact (bicubic_fast_on_image h l img small scale_factor Hl Et).
Qed.

(** ** The samples of the bicubic resampler outside the image *)

(** In the 4 x 4 table that the from-scratch bicubic resampler builds
    around [(sr, sc)], the entry of every sample whose coordinate lies
    outside [0,width) x [0,height) is the zero pixel, whatever the image
    holds; an entry inside is the pixel of the image. *)
Lemma contributions_entries (img : Image) (sr sc : Z) (x_index y_index : nat) :
  (x_index < 4)%nat -> (y_index < 4)%nat ->
  let x_vals := map (fun scale => sr - 1 + scale) (range 4) in
  let y_vals := map (fun scale => sc - 1 + scale) (range 4) in
  let x_val := sr - 1 + Z.of_nat x_index in
  let y_val := sc - 1 + Z.of_nat y_index in
  (~ (0 <= x_val < width img /\ 0 <= y_val < height img) ->
     contributions_at (contributions img x_vals y_vals) x_index y_index = (0, 0, 0)%float)
  /\ (0 <= x_val < width img /\ 0 <= y_val < height img ->
     contributions_at (contributions img x_vals y_vals) x_index y_index
     = np_array (data img x_val y_val)).
Proof.
  intros Hx Hy x_vals y_vals x_val y_val.
  assert (E : contributions_at (contributions img x_vals y_vals) x_index y_index
              = contribution img x_val y_val).
  { unfold x_vals, y_vals, x_val, y_val.
    destruct x_index as [ | [ | [ | [ | ?]]]]; try lia;
      destruct y_index as [ | [ | [ | [ | ?]]]]; try lia; reflexivity. }
  rewrite E. unfold contribution. split.
  - intros Hout.
    destruct ((0 <=? x_val) && (x_val <? width img) && (0 <=? y_val) && (y_val <? height img))
      eqn:B; [ | vm_compute; reflexivity].
    exfalso. apply Hout.
    apply andb_prop in B as [B B4]. apply andb_prop in B as [B B3].
    apply andb_prop in B as [B1 B2]. lia.
  - intros [[H1 H2] [H3 H4]].
    destruct (Z.leb_spec 0 x_val), (Z.ltb_spec x_val (width img)),
      (Z.leb_spec 0 y_val), (Z.ltb_spec y_val (height img)); try lia.
    reflexivity.
Qed.

(** The zero samples show in the result: a white 1 x 1 image doubled has
    143 and 80 where border clamping would give 255. *)
Lemma bicubic_darkens_the_border :
  let run := @bicubic_filter PIL_absent LibM_product (PyImg 0%nat) 2 false
               [uniform 1 1 (RGB 255 255 255)] in
  (fun img => (data img 0 0, data img 1 0, data img 1 1)) <$> (fst run !! 1%nat)
  = Some (RGB 255 255 255, RGB 143 143 143, RGB 80 80 80).
Proof. vm_compute. reflexivity. Qed.

(** ** C6: what a stage does to the image it is given *)

(** C6, as stated, fails: the from-scratch thresholder writes into the
    image it is given; the dark pixel of the input is black afterwards. *)
Lemma binary_threshold_overwrites_its_input :
  let h := [uniform 1 1 (RGB 10 10 10)] in
  let run := @binary_threshold PIL_absent (PyImg 0%nat) 128 false h in
  snd run = Ret (PyImg 0%nat)
  /\ (fun img => data img 0 0) <$> (h !! 0%nat) = Some (RGB 10 10 10)
  /\ (fun img => data img 0 0) <$> (fst run !! 0%nat) = Some (RGB 0 0 0)
  /\ (fun img => data img 0 0) <$> (fst run !! 0%nat)
     <> (fun img => data img 0 0) <$> (h !! 0%nat).
Proof. vm_compute. repeat split; discriminate. Qed.

(** C6 (amended): the from-scratch bilinear and bicubic resamplers leave
    every image that existed before the call as it was, and the bicubic one
    returns a new image; the from-scratch grayscale and thresholder return
    the very image they were given, with each pixel overwritten in place;
    the fast grayscale and thresholder build a new image and leave the
    others as they were. *)
Theorem stages_and_their_input `{pil : PIL} `{libm : LibM}
    (h : Heap) (l : nat) (img : Image) (scale_factor : float) (T : Z) :
  h !! l = Some img -> channels_in_range img ->
  fst (bilinear_filter (PyImg l) scale_factor false h) !! l = Some img
  /\ keeps h (fst (bilinear_filter (PyImg l) scale_factor false h))
  /\ fst (bicubic_filter (PyImg l) scale_factor false h) !! l = Some img
  /\ keeps h (fst (bicubic_filter (PyImg l) scale_factor false h))
  /\ (forall h' v, bicubic_filter (PyImg l) scale_factor false h = (h', Ret v) ->
        v = PyImg (length h) /\ v <> PyImg l)
  /\ (exists img',
        to_grayscale (PyImg l) false h = (<[l := img']> h, Ret (PyImg l))
        /\ forall x y, in_bounds img x y = true -> data img' x y = gray_pixel (data img x y))
  /\ (exists img',
        binary_threshold (PyImg l) T false h = (<[l := img']> h, Ret (PyImg l))
        /\ forall x y, in_bounds img x y = true ->
             data img' x y = threshold_pixel T (data img x y))
  /\ keeps h (fst (to_grayscale (PyImg l) true h))
  /\ keeps h (fst (binary_threshold (PyImg l) T true h))
  /\ (forall h' v, to_grayscale (PyImg l) true h = (h', Ret v) -> v = PyImg (length h))
  /\ (forall h' v, binary_threshold (PyImg l) T true h = (h', Ret v) -> v = PyImg (length h)).
Proof.
  intros Hl Hrange.
  pose proof (bilinear_scratch_keeps h (PyImg l) scale_factor) as Kl.
  destruct (bicubic_scratch_keeps h (PyImg l) scale_factor) as [Kc _].
  split; [apply Kl; exact Hl | ]. split; [exact Kl | ].
  split; [apply Kc; exact Hl | ]. split; [exact Kc | ].
  split.
  { intros h' v E. apply bicubic_scratch_result in E as [-> _].
    split; [reflexivity | ]. intros [= E]. apply lookup_lt_Some in Hl. lia. }
  split.
  { destruct (to_grayscale_scratch h l img Hl Hrange) as (img' & E & _ & _ & Hd). eauto. }
  split.
  { destruct (binary_threshold_scratch h l img T Hl (channels_in_range_rgb img Hrange))
      as (img' & E & _ & _ & Hd). eauto. }
  split; [apply to_grayscale_fast_keeps | ].
  split; [apply binary_threshold_fast_keeps | ].
  split.
  - intros h' v E. eapply to_grayscale_fast_result. exact E.
  - intros h' v E. eapply binary_threshold_fast_result. exact E.
Qed.

Lemma stages_and_their_input_witness :
  fst (@bicubic_filter PIL_absent LibM_product (PyImg 0%nat) 2 false
         [uniform 2 2 (RGB 10 200 30)]) !! 0%nat
  = Some (uniform 2 2 (RGB 10 200 30)).
Proof.
  destruct (@stages_and_their_input PIL_absent LibM_product [uniform 2 2 (RGB 10 200 30)]
              0%nat (uniform 2 2 (RGB 10 200 30)) 2%float 128 eq_refl)
    as (_ & _ & Hc & _).
  - intros x y _. exists 10, 200, 30. cbn. repeat split; lia.
  - exact Hc.
Defined.

(** ** C9: the channels of the output *)



(** The resamplers do return on such an image. *)
Lemma resamplers_return :
  snd (@bilinear_filter PIL_absent (PyImg 0%nat) 2 false [uniform 2 2 (RGB 10 200 30)])
  = Ret (PyImg 0%nat)
  /\ snd (@bicubic_filter PIL_absent LibM_product (PyImg 0%nat) 2 false
            [uniform 2 2 (RGB 10 200 30)])
     = Ret (PyImg 1%nat).
Proof. vm_compute. split; reflexivity. Qed.

(** ** C4 and C10: the answer of the model *)

(** C4, as stated, fails: when the answer has no usable text the string
    returned is the one written in the source, which is not the string of
    the specification. *)
Lemma fallback_is_not_the_specified_string :
  let run := @get_text_from_image PIL_absent LibM_product (Services_answering response_empty)
               (PyFile 0) true [] in
  snd run = Ret (PyStr "Sorry I couldn Understand the Prescription")
  /\ snd run <> Ret (PyStr "Sorry, I couldn't understand the Prescription").
Proof. vm_compute. split; [reflexivity | discriminate]. Qed.

(** C4 (amended): when the model has answered and both [response.text] and
    [response.parts[0]] raise, [get_text_from_image] returns the fixed
    string 'Sorry I couldn Understand the Prescription' and raises nothing. *)
Theorem get_text_fallback `{pil : PIL} `{libm : LibM} `{sv : Services}
    (image : PyVal) (fast : bool) (h h' : Heap) (response : Response) :
  ask_model image fast h = (h', Ret response) ->
  raised (response_text response) ->
  raised (response_parts_0 response) ->
  get_text_from_image image fast h
  = (h', Ret (PyStr "Sorry I couldn Understand the Prescription")).
Proof.
  intros E [e1 E1] [e2 E2]. unfold get_text_from_image.
  rewrite (bind_ret _ _ _ _ _ E). unfold handle_response. rewrite E1, E2. reflexivity.
Qed.

Lemma get_text_fallback_witness :
  @get_text_from_image PIL_absent LibM_product (Services_answering response_empty)
    (PyFile 0) true []
  = ([uniform 1 1 (RGB 255 255 255)],
     Ret (PyStr "Sorry I couldn Understand the Prescription")).
Proof.
  apply (@get_text_fallback PIL_absent LibM_product (Services_answering response_empty)
           (PyFile 0) true [] [uniform 1 1 (RGB 255 255 255)] response_empty).
  - reflexivity.
  - exists ValueError. reflexivity.
  - exists IndexError. reflexivity.
Defined.

(** C10: when the model has answered, [response.text] raises and
    [response.parts[0]] can be read, [get_text_from_image] returns [None]:
    neither the answer nor the fallback string. *)
Theorem get_text_returns_none `{pil : PIL} `{libm : LibM} `{sv : Services}
    (image : PyVal) (fast : bool) (h h' : Heap) (response : Response) :
  ask_model image fast h = (h', Ret response) ->
  raised (response_text response) ->
  (exists part, response_parts_0 response = Ret part) ->
  get_text_from_image image fast h = (h', Ret PyNone).
Proof.
  intros E [e1 E1] [part E2]. unfold get_text_from_image.
  rewrite (bind_ret _ _ _ _ _ E). unfold handle_response. rewrite E1, E2. reflexivity.
Qed.

Lemma get_text_returns_none_witness :
  @get_text_from_image PIL_absent LibM_product (Services_answering response_two_parts)
    (PyFile 0) true []
  = ([uniform 1 1 (RGB 255 255 255)], Ret PyNone).
Proof.
  apply (@get_text_returns_none PIL_absent LibM_product (Services_answering response_two_parts)
           (PyFile 0) true [] [uniform 1 1 (RGB 255 255 255)] response_two_parts).
  - reflexivity.
  - exists ValueError. reflexivity.
  - exists "Take one tablet"%string. reflexivity.
Defined.

(** * Part III: further properties *)

(** ** Triples *)

Lemma triple_ret {A} (a : A) (Q : A -> Heap -> Prop) (E : Exn -> Prop) :
  triple (Q a) (mret a) Q E.
Proof. intros h Hh. exact Hh. Qed.

Lemma triple_bind {A B} (P : Heap -> Prop) (m : M A) (k : A -> M B)
    (R : A -> Heap -> Prop) (Q : B -> Heap -> Prop) (E : Exn -> Prop) :
  triple P m R E -> (forall a, triple (R a) (k a) Q E) -> triple P (m ≫= k) Q E.
Proof.
  intros Hm Hk h Hh. rewrite bind_unfold. specialize (Hm h Hh).
  destruct (m h) as [h1 [a | e]]; [apply Hk; exact Hm | exact Hm].
Qed.

Lemma triple_conseq {A} (P P' : Heap -> Prop) (m : M A) (Q Q' : A -> Heap -> Prop)
    (E E' : Exn -> Prop) :
  triple P' m Q' E' ->
  (forall h, P h -> P' h) -> (forall a h, Q' a h -> Q a h) -> (forall e, E' e -> E e) ->
  triple P m Q E.
Proof.
  intros Hm HP HQ HE h Hh. specialize (Hm h (HP h Hh)).
  destruct (m h) as [h1 [a | e]]; auto.
Qed.

Lemma triple_lift_bind {A B} (P : Heap -> Prop) (r : Res A) (k : A -> M B)
    (Q : B -> Heap -> Prop) (E : Exn -> Prop) :
  (forall e, r = Raise e -> E e) ->
  (forall a, r = Ret a -> triple P (k a) Q E) ->
  triple P (lift r ≫= k) Q E.
Proof.
  intros He Hk h Hh. rewrite lift_bind. destruct r as [a | e].
  - apply (Hk a eq_refl). exact Hh.
  - apply He. reflexivity.
Qed.

Lemma triple_for_range (I : Z -> Heap -> Prop) (n : Z) (body : Z -> M unit)
    (E : Exn -> Prop) :
  (forall k, 0 <= k < n -> triple (I k) (body k) (fun _ => I (k + 1)) E) ->
  triple (I 0) (for_each (range n) body) (fun _ => I (Z.max 0 n)) E.
Proof.
  intros Hstep. unfold range.
  assert (Hgen : forall m start,
            Z.of_nat (start + m) <= Z.max 0 n ->
            triple (I (Z.of_nat start)) (for_each (map Z.of_nat (seq start m)) body)
              (fun _ => I (Z.of_nat (start + m))) E).
  { induction m as [ | m IH]; intros start Hle; cbn [seq map for_each].
    - intros h Hh. cbn. rewrite Nat.add_0_r. exact Hh.
    - eapply triple_bind.
      + apply Hstep. lia.
      + intros u. cbv beta.
        replace (Z.of_nat start + 1) with (Z.of_nat (S start)) by lia.
        replace (start + S m)%nat with (S start + m)%nat by lia.
        apply IH. lia. }
  replace (Z.max 0 n) with (Z.of_nat (0 + Z.to_nat n)) by lia.
  apply (Hgen (Z.to_nat n) 0%nat). lia.
Qed.

(** ** Loops that fill a new image pixel by pixel

    The two nested loops of the resamplers: when the body computes a pixel
    from the source image and writes it at [(row, col)] of the destination,
    the loops visit every pixel once, keep what they wrote, and raise only
    what the computation of a pixel raises. *)
Lemma fill_triple (pix : Z -> Z -> Res Pixel) (body : Z -> Z -> M unit)
    (src dst : nat) (img : Image) (nw nh : Z) (E : Exn -> Prop) :
  src <> dst ->
  (forall row col hh, 0 <= row < nw -> 0 <= col < nh -> hh !! src = Some img ->
     body row col hh = (lift (pix row col) ≫= putpixel dst row col) hh) ->
  (forall row col e, 0 <= row < nw -> 0 <= col < nh -> pix row col = Raise e -> E e) ->
  triple (filled pix src dst img nw nh 0)
    (for_each (range nw) (fun row => for_each (range nh) (fun col => body row col)))
    (fun _ => filled pix src dst img nw nh nw) E.
Proof.
  intros Hne Hbody Hraise.
  eapply triple_conseq;
    [apply (triple_for_range (filled pix src dst img nw nh) nw _ E) | auto | | auto].
  2: { intros u h (Hs & d & Hd & Hw & Hh & Hp). split; [exact Hs | ].
       exists d. repeat (split; [assumption | ]). intros x y Hx Hy. apply Hp; lia. }
  intros k Hk.
  set (J := fun (j : Z) (hh : Heap) =>
    hh !! src = Some img /\
    exists d, hh !! dst = Some d /\ width d = nw /\ height d = nh /\
      forall x y, 0 <= x -> 0 <= y < nh -> x < k \/ (x = k /\ y < j) ->
        pix x y = Ret (data d x y)).
  eapply triple_conseq; [apply (triple_for_range J nh (fun col => body k col) E) | | | auto].
  - intros j Hj hh (Hs & d & Hd & Hw & Hh & Hp).
    rewrite (Hbody k j hh Hk Hj Hs), lift_bind.
    destruct (pix k j) as [p | e] eqn:Epix; [ | eapply Hraise; eassumption].
    assert (B : in_bounds d k j = true).
    { unfold in_bounds. rewrite Hw, Hh.
      repeat (apply andb_true_intro; split); first [apply Z.leb_le | apply Z.ltb_lt]; lia. }
    rewrite (putpixel_eq dst k j p hh d Hd B). split.
    + rewrite list_lookup_insert_ne by auto. exact Hs.
    + exists (set_data d k j p). split.
      { apply list_lookup_insert_eq. eapply lookup_lt_Some. exact Hd. }
      cbn [set_data width height data]. repeat (split; [assumption | ]).
      intros x y Hx Hy Hdone.
      destruct (Z.eqb_spec x k) as [-> | Hxk], (Z.eqb_spec y j) as [-> | Hyj]; cbn [andb].
      * symmetry in Epix. rewrite Epix. reflexivity.
      * apply Hp; lia.
      * apply Hp; lia.
      * apply Hp; lia.
  - intros h (Hs & d & Hd & Hw & Hh & Hp). split; [exact Hs | ].
    exists d. repeat (split; [assumption | ]). intros x y Hx Hy Hdone. apply Hp; lia.
  - intros u h (Hs & d & Hd & Hw & Hh & Hp). split; [exact Hs | ].
    exists d. repeat (split; [assumption | ]). intros x y Hx Hy.
    apply Hp; lia.
Qed.

(** ** What the arithmetic of the resamplers can raise *)

Lemma int_of_float_raises (f : float) (e : Exn) :
  int_of_float f = Raise e -> e = ValueError \/ e = OverflowError.
Proof.
  unfold int_of_float. destruct (Prim2SF f); intros [= <-]; auto.
Qed.

Lemma Image_new_raises `{pil : PIL} (w h : Z) (e : Exn) :
  Image_new w h = Raise e -> e = ValueError \/ e = OverflowError \/ e = MemoryError.
Proof.
  unfold Image_new. destruct ((w <? 0) || (h <? 0)); [intros [= <-]; auto | ].
  destruct ((INT_MAX <? w) || (INT_MAX <? h)); [intros [= <-]; auto | ].
  destruct (((0 <? w) || (0 <? h)) && negb (Image_storage w h)); intros [= <-]; auto.
Qed.

Lemma Image_new_dims `{pil : PIL} (w h : Z) (img : Image) :
  Image_new w h = Ret img -> width img = w /\ height img = h /\ 0 <= w /\ 0 <= h.
Proof.
  unfold Image_new. destruct (Z.ltb_spec w 0), (Z.ltb_spec h 0); cbn [orb];
    try discriminate.
  destruct ((INT_MAX <? w) || (INT_MAX <? h)); [discriminate | ].
  destruct (((0 <? w) || (0 <? h)) && negb (Image_storage w h)); [discriminate | ].
  intros [= <-]. cbn. auto.
Qed.

(** A float that compares equal to zero is a zero. *)
Lemma eqb_zero (s : float) :
  PrimFloat.eqb s 0 = true -> exists b, Prim2SF s = S754_zero b.
Proof.
  rewrite FloatAxioms.eqb_spec. change (Prim2SF 0) with (S754_zero false).
  unfold SFeqb. destruct (Prim2SF s) as [b | b | | b m e]; cbn; try discriminate.
  - eauto.
  - destruct b; discriminate.
  - destruct b; discriminate.
Qed.

(** A float that differs from itself is a NaN. *)
Lemma is_nan_spec (s : float) : PrimFloat.is_nan s = true -> Prim2SF s = S754_nan.
Proof.
  unfold PrimFloat.is_nan. rewrite FloatAxioms.eqb_spec. unfold SFeqb.
  destruct (Prim2SF s) as [b | b | | b m e]; cbn; try reflexivity.
  - discriminate.
  - destruct b; discriminate.
  - destruct b; rewrite Z.compare_refl, Pos.compare_cont_refl; discriminate.
Qed.

(** [int(a * s)] for a zero [s] is 0, unless it raises. *)
Lemma int_of_mul_zero (a s : float) (n : Z) :
  PrimFloat.eqb s 0 = true -> int_of_float (a * s) = Ret n -> n = 0.
Proof.
  intros Hs. destruct (eqb_zero s Hs) as [b Eb].
  unfold int_of_float. rewrite FloatAxioms.mul_spec, Eb. unfold SF64mul.
  destruct (Prim2SF a) as [c | c | | c m e]; cbn; try discriminate; intros [= <-]; reflexivity.
Qed.

(** [int(a * s)] for a NaN [s] raises [ValueError]. *)
Lemma int_of_mul_nan (a s : float) :
  PrimFloat.is_nan s = true -> int_of_float (a * s) = Raise ValueError.
Proof.
  intros Hs. unfold int_of_float.
  rewrite FloatAxioms.mul_spec, (is_nan_spec s Hs). unfold SF64mul.
  destruct (Prim2SF a); reflexivity.
Qed.

Lemma float_div_nonzero (a s : float) :
  PrimFloat.eqb s 0 = false -> float_div a s = Ret (a / s)%float.
Proof. intros Hs. unfold float_div. rewrite Hs. reflexivity. Qed.

(** When [int(a * s)] is not 0, [s] is not a zero. *)
Lemma scale_nonzero (a s : float) (n : Z) :
  int_of_float (a * s) = Ret n -> n <> 0 -> PrimFloat.eqb s 0 = false.
Proof.
  intros Hn Hne. destruct (PrimFloat.eqb s 0) eqn:Es; [ | reflexivity].
  exfalso. apply Hne. eapply int_of_mul_zero; eassumption.
Qed.

Lemma clipped_pixel_raises (v : Vec3) (e : Exn) :
  clipped_pixel v = Raise e -> e = ValueError \/ e = OverflowError.
Proof.
  destruct v as [[v0 v1] v2]. unfold clipped_pixel.
  destruct (int_of_float (np_clip v0 0 255)) as [r | e0] eqn:E0; cbn.
  2: { intros [= <-]. eapply int_of_float_raises. exact E0. }
  destruct (int_of_float (np_clip v1 0 255)) as [g | e1] eqn:E1; cbn.
  2: { intros [= <-]. eapply int_of_float_raises. exact E1. }
  destruct (int_of_float (np_clip v2 0 255)) as [b | e2] eqn:E2; cbn.
  2: { intros [= <-]. eapply int_of_float_raises. exact E2. }
  discriminate.
Qed.

Lemma bicubic_pixel_raises `{libm : LibM} (img : Image) (s : float) (row col : Z) (e : Exn) :
  PrimFloat.eqb s 0 = false ->
  bicubic_pixel img s row col = Raise e -> e = ValueError \/ e = OverflowError.
Proof.
  intros Hs. unfold bicubic_pixel. rewrite !(float_div_nonzero _ s Hs). cbn.
  destruct (int_of_float (float_of_int row / s)) as [sr | e0] eqn:E0; cbn.
  2: { intros [= <-]. eapply int_of_float_raises. exact E0. }
  destruct (int_of_float (float_of_int col / s)) as [sc | e1] eqn:E1; cbn.
  2: { intros [= <-]. eapply int_of_float_raises. exact E1. }
  apply clipped_pixel_raises.
Qed.

Lemma channel_raises (p : Pixel) (i : nat) (e : Exn) :
  (i < 3)%nat -> channel p i = Raise e -> e = TypeError /\ exists v, p = Lum v.
Proof.
  intros Hi. destruct p as [v | r g b]; cbn.
  - intros [= <-]. eauto.
  - destruct i as [ | [ | [ | i]]]; try discriminate. lia.
Qed.

Lemma interpolated_pixel_raises (x y : float) (x1 y1 : Z) (tl tr bl br : Pixel) (e : Exn) :
  interpolated_pixel x y x1 y1 tl tr bl br = Raise e ->
  e = ValueError \/ e = OverflowError
  \/ (e = TypeError /\ exists v, tl = Lum v \/ tr = Lum v \/ bl = Lum v \/ br = Lum v).
Proof.
  unfold interpolated_pixel.
  destruct tl as [v | r0 g0 b0]; [cbn; intros [= <-]; eauto 8 | ].
  destruct tr as [v | r1 g1 b1]; [cbn; intros [= <-]; eauto 8 | ].
  destruct bl as [v | r2 g2 b2]; [cbn; intros [= <-]; eauto 8 | ].
  destruct br as [v | r3 g3 b3]; [cbn; intros [= <-]; eauto 8 | ].
  unfold mbind, Res_bind. cbn [channel res_bind].
  destruct (interpolate x y x1 y1 r0 r1 r2 r3) as [c0 | e0] eqn:E0; cbn [res_bind].
  2: { intros [= <-]. apply int_of_float_raises in E0. tauto. }
  destruct (interpolate x y x1 y1 g0 g1 g2 g3) as [c1 | e1] eqn:E1; cbn [res_bind].
  2: { intros [= <-]. apply int_of_float_raises in E1. tauto. }
  destruct (interpolate x y x1 y1 b0 b1 b2 b3) as [c2 | e2] eqn:E2; cbn [res_bind].
  2: { intros [= <-]. apply int_of_float_raises in E2. tauto. }
  discriminate.
Qed.

Lemma pixel_at_inv (img : Image) (x y : Z) (p : Pixel) :
  pixel_at img x y = Ret p -> in_bounds img x y = true /\ p = data img x y.
Proof.
  unfold pixel_at. destruct (in_bounds img x y); [ | discriminate].
  intros [= <-]. auto.
Qed.

Lemma pixel_at_raises (img : Image) (x y : Z) (e : Exn) :
  pixel_at img x y = Raise e -> e = IndexError.
Proof.
  unfold pixel_at. destruct (in_bounds img x y); [discriminate | ].
  intros [= <-]. reflexivity.
Qed.

Lemma bilinear_pixel_raises (img : Image) (s : float) (row col : Z) (e : Exn) :
  PrimFloat.eqb s 0 = false ->
  bilinear_pixel img s row col = Raise e ->
  e = ValueError \/ e = OverflowError \/ e = IndexError \/ (e = TypeError /\ ~ is_rgb img).
Proof.
  intros Hs. unfold bilinear_pixel. rewrite !(float_div_nonzero _ s Hs).
  unfold mbind, Res_bind. cbn [res_bind].
  destruct (int_of_float (float_of_int row / s)) as [x1 | e0] eqn:E0; cbn [res_bind].
  2: { intros Hr; injection Hr as Hr; subst e. apply int_of_float_raises in E0. tauto. }
  destruct (int_of_float (float_of_int col / s)) as [y1 | e1] eqn:E1; cbn [res_bind].
  2: { intros Hr; injection Hr as Hr; subst e. apply int_of_float_raises in E1. tauto. }
  cbv zeta.
  destruct (pixel_at img x1 y1) as [tl | e2] eqn:P0; cbn [res_bind].
  2: { intros Hr; injection Hr as Hr; subst e. apply pixel_at_raises in P0. tauto. }
  destruct (pixel_at img (Z.min (x1 + 1) (width img - 1)) y1) as [tr | e3] eqn:P1; cbn [res_bind].
  2: { intros Hr; injection Hr as Hr; subst e. apply pixel_at_raises in P1. tauto. }
  destruct (pixel_at img x1 (Z.min (y1 + 1) (height img - 1))) as [bl | e4] eqn:P2; cbn [res_bind].
  2: { intros Hr; injection Hr as Hr; subst e. apply pixel_at_raises in P2. tauto. }
  destruct (pixel_at img (Z.min (x1 + 1) (width img - 1)) (Z.min (y1 + 1) (height img - 1)))
    as [br | e5] eqn:P3; cbn [res_bind].
  2: { intros Hr; injection Hr as Hr; subst e. apply pixel_at_raises in P3. tauto. }
  intros Hi. apply interpolated_pixel_raises in Hi as [-> | [-> | [-> (v & Hv)]]]; auto.
  right. right. right. split; [reflexivity | ]. intros Hrgb.
  apply pixel_at_inv in P0 as [B0 ->]. apply pixel_at_inv in P1 as [B1 ->].
  apply pixel_at_inv in P2 as [B2 ->]. apply pixel_at_inv in P3 as [B3 ->].
  destruct Hv as [Hv | [Hv | [Hv | Hv]]];
    [destruct (Hrgb _ _ B0) as (r & g & b & Ep) | destruct (Hrgb _ _ B1) as (r & g & b & Ep)
    | destruct (Hrgb _ _ B2) as (r & g & b & Ep) | destruct (Hrgb _ _ B3) as (r & g & b & Ep)];
    rewrite Ep in Hv; discriminate.
Qed.

(** ** The from-scratch resamplers, pixel by pixel *)

Lemma lift_ret_bind {A B} (a : A) (k : A -> M B) (h : Heap) : (lift (Ret a) ≫= k) h = k a h.
Proof. reflexivity. Qed.

Lemma lift_raise_bind {A B} (e : Exn) (k : A -> M B) (h : Heap) :
  (lift (Raise e) ≫= k) h = (h, Raise e).
Proof. reflexivity. Qed.

Lemma res_ret_bind {A B} (a : A) (k : A -> Res B) : (Ret a ≫= k) = k a.
Proof. reflexivity. Qed.

Lemma res_raise_bind {A B} (e : Exn) (k : A -> Res B) : (Raise e ≫= k) = Raise e.
Proof. reflexivity. Qed.

Lemma getpixel_at {B} (l : nat) (x y : Z) (k : Pixel -> M B) (h : Heap) (img : Image) :
  h !! l = Some img -> (getpixel l x y ≫= k) h = (lift (pixel_at img x y) ≫= k) h.
Proof.
  intros Hl. rewrite lift_bind, bind_unfold. unfold getpixel, pixel_at.
  rewrite load_bind, Hl. destruct (in_bounds img x y); reflexivity.
Qed.

Ltac res_case r :=
  destruct r;
  [rewrite lift_ret_bind, res_ret_bind | rewrite res_raise_bind, !lift_raise_bind; reflexivity].

Lemma filled_start `{pil : PIL} (pix : Z -> Z -> Res Pixel) (h : Heap) (l : nat) (img resized : Image)
    (nw nh : Z) :
  h !! l = Some img -> Image_new nw nh = Ret resized ->
  filled pix l (length h) img nw nh 0 (h ++ [resized]).
Proof.
  intros Hl Hnew. apply Image_new_dims in Hnew as (Hw & Hh & _). split.
  - apply lookup_app_l_Some. exact Hl.
  - exists resized. split; [apply list_lookup_middle; reflexivity | ].
    repeat (split; [assumption | ]). intros x y Hx. lia.
Qed.

Lemma bilinear_scratch_triple `{pil : PIL} (h : Heap) (l : nat) (img : Image) (s : float) :
  h !! l = Some img ->
  match bilinear_filter (PyImg l) s false h with
  | (h', Ret v) =>
      v = PyImg l /\
      exists nw nh,
        int_of_float (float_of_int (width img) * s) = Ret nw
        /\ int_of_float (float_of_int (height img) * s) = Ret nh
        /\ filled (bilinear_pixel img s) l (length h) img nw nh nw h'
  | (_, Raise e) => bilinear_raises img e
  end.
Proof.
  intros Hl. unfold bilinear_filter. cbv zeta. cbn [as_image].
  rewrite ret_bind, load_bind, Hl.
  rewrite lift_bind.
  destruct (int_of_float (float_of_int (width img) * s)) as [nw | e] eqn:Enw.
  2: { apply int_of_float_raises in Enw. unfold bilinear_raises. tauto. }
  rewrite lift_bind.
  destruct (int_of_float (float_of_int (height img) * s)) as [nh | e] eqn:Enh.
  2: { apply int_of_float_raises in Enh. unfold bilinear_raises. tauto. }
  rewrite lift_bind. destruct (Image_new nw nh) as [resized | e] eqn:Enew.
  2: { apply Image_new_raises in Enew. unfold bilinear_raises. tauto. }
  rewrite bind_unfold. cbn [alloc].
  match goal with
  | |- context [(?m ≫= ?k) (h ++ [resized])] =>
      assert (T : triple (filled (bilinear_pixel img s) l (length h) img nw nh 0) (m ≫= k)
                    (fun v h' => v = PyImg l
                                 /\ filled (bilinear_pixel img s) l (length h) img nw nh nw h')
                    (bilinear_raises img))
  end.
  { eapply triple_bind.
    - apply (fill_triple (bilinear_pixel img s) _ l (length h) img nw nh (bilinear_raises img)).
      + apply lookup_lt_Some in Hl. lia.
      + intros row col hh Hr Hc Hs. cbv beta. unfold bilinear_pixel. cbv zeta.
        res_case (float_div (float_of_int row) s).
        res_case (float_div (float_of_int col) s).
        res_case (int_of_float a).
        res_case (int_of_float a0).
        rewrite (getpixel_at l _ _ _ hh img Hs).
        res_case (pixel_at img a1 a2).
        rewrite (getpixel_at l _ _ _ hh img Hs).
        res_case (pixel_at img (Z.min (a1 + 1) (width img - 1)) a2).
        rewrite (getpixel_at l _ _ _ hh img Hs).
        res_case (pixel_at img a1 (Z.min (a2 + 1) (height img - 1))).
        rewrite (getpixel_at l _ _ _ hh img Hs).
        res_case (pixel_at img (Z.min (a1 + 1) (width img - 1))
                    (Z.min (a2 + 1) (height img - 1))).
        reflexivity.
      + intros row col e Hr Hc Hp.
        assert (Hs : PrimFloat.eqb s 0 = false) by (apply (scale_nonzero _ s nw Enw); lia).
        pose proof (bilinear_pixel_raises img s row col e Hs Hp) as He.
        unfold bilinear_raises. tauto.
    - intros u h' Hh'. cbn. auto. }
  specialize (T (h ++ [resized]) (filled_start _ h l img resized nw nh Hl Enew)).
  match goal with |- match ?t with _ => _ end => destruct t as [h' [v | e]] end; [ | exact T].
  destruct T as [-> Hf]. split; [reflexivity | ]. exists nw, nh. auto.
Qed.

Lemma bicubic_scratch_triple `{pil : PIL} `{libm : LibM}
    (h : Heap) (l : nat) (img : Image) (s : float) :
  h !! l = Some img ->
  match bicubic_filter (PyImg l) s false h with
  | (h', Ret v) =>
      v = PyImg (length h) /\
      exists nw nh,
        int_of_float (float_of_int (width img) * s) = Ret nw
        /\ int_of_float (float_of_int (height img) * s) = Ret nh
        /\ filled (bicubic_pixel img s) l (length h) img nw nh nw h'
  | (_, Raise e) => bicubic_raises e
  end.
Proof.
  intros Hl. unfold bicubic_filter. cbv zeta. cbn [as_image].
  rewrite ret_bind, load_bind, Hl.
  rewrite lift_bind.
  destruct (int_of_float (float_of_int (width img) * s)) as [nw | e] eqn:Enw.
  2: { apply int_of_float_raises in Enw. unfold bicubic_raises. tauto. }
  rewrite lift_bind.
  destruct (int_of_float (float_of_int (height img) * s)) as [nh | e] eqn:Enh.
  2: { apply int_of_float_raises in Enh. unfold bicubic_raises. tauto. }
  rewrite lift_bind. destruct (Image_new nw nh) as [resized | e] eqn:Enew.
  2: { apply Image_new_raises in Enew. exact Enew. }
  rewrite bind_unfold. cbn [alloc].
  match goal with
  | |- context [(?m ≫= ?k) (h ++ [resized])] =>
      assert (T : triple (filled (bicubic_pixel img s) l (length h) img nw nh 0) (m ≫= k)
                    (fun v h' => v = PyImg (length h)
                                 /\ filled (bicubic_pixel img s) l (length h) img nw nh nw h')
                    bicubic_raises)
  end.
  { eapply triple_bind.
    - apply (fill_triple (bicubic_pixel img s) _ l (length h) img nw nh bicubic_raises).
      + apply lookup_lt_Some in Hl. lia.
      + intros row col hh Hr Hc Hs. cbv beta. unfold bicubic_pixel. cbv zeta.
        res_case (float_div (float_of_int row) s).
        res_case (float_div (float_of_int col) s).
        res_case (int_of_float a).
        res_case (int_of_float a0).
        rewrite load_bind, Hs. reflexivity.
      + intros row col e Hr Hc Hp.
        assert (Hs : PrimFloat.eqb s 0 = false) by (apply (scale_nonzero _ s nw Enw); lia).
        pose proof (bicubic_pixel_raises img s row col e Hs Hp) as He.
        unfold bicubic_raises. tauto.
    - intros u h' Hh'. cbn. auto. }
  specialize (T (h ++ [resized]) (filled_start _ h l img resized nw nh Hl Enew)).
  match goal with |- match ?t with _ => _ end => destruct t as [h' [v | e]] end; [ | exact T].
  destruct T as [-> Hf]. split; [reflexivity | ]. exists nw, nh. auto.
Qed.

Lemma run_eta {A} (m : M A) (h : Heap) : m h = (fst (m h), snd (m h)).
Proof. destruct (m h). reflexivity. Qed.

(** X1: when the from-scratch bilinear resampler returns, the image it
    built (and left on the heap) has [int(width * factor)] columns and
    [int(height * factor)] rows, and its pixel at every [(row, col)] is the
    interpolated pixel of the four clamped corners around
    [(row / factor, col / factor)] of the source image. *)
Theorem bilinear_buffer_contents `{pil : PIL} (h h' : Heap) (l : nat) (img : Image)
    (s : float) (v : PyVal) :
  h !! l = Some img ->
  bilinear_filter (PyImg l) s false h = (h', Ret v) ->
  exists nw nh d,
    int_of_float (float_of_int (width img) * s) = Ret nw
    /\ int_of_float (float_of_int (height img) * s) = Ret nh
    /\ h' !! length h = Some d /\ width d = nw /\ height d = nh
    /\ forall row col, 0 <= row < nw -> 0 <= col < nh ->
         bilinear_pixel img s row col = Ret (data d row col).
Proof.
  intros Hl E. pose proof (bilinear_scratch_triple h l img s Hl) as T.
  rewrite E in T. destruct T as (_ & nw & nh & Enw & Enh & _ & d & Hd & Hw & Hh & Hp).
  exists nw, nh, d. auto 10.
Qed.

Lemma bilinear_buffer_contents_witness :
  exists d,
    fst (@bilinear_filter PIL_absent (PyImg 0%nat) 2 false [photo]) !! 1%nat = Some d
    /\ bilinear_pixel photo 2 1 1 = Ret (data d 1 1).
Proof.
  destruct (@bilinear_buffer_contents PIL_absent [photo]
              (fst (@bilinear_filter PIL_absent (PyImg 0%nat) 2 false [photo]))
              0%nat photo 2%float (PyImg 0%nat) eq_refl)
    as (nw & nh & d & Enw & Enh & Hd & _ & _ & Hp).
  - rewrite (run_eta (bilinear_filter (PyImg 0%nat) 2 false) [photo]) at 1.
    f_equal; try (vm_compute; reflexivity).
  - exists d. split; [exact Hd | ].
    assert (Hw : nw = 4) by (vm_compute in Enw; congruence).
    assert (Hh : nh = 4) by (vm_compute in Enh; congruence).
    apply Hp; lia.
Defined.

(** X2: when the from-scratch bicubic resampler returns, it returns a new
    image of [int(width * factor)] columns and [int(height * factor)] rows
    whose pixel at every [(row, col)] is the clipped, truncated weighted sum
    over the 4 x 4 neighbourhood of [(row / factor, col / factor)] in the
    source image. *)
Theorem bicubic_result_contents `{pil : PIL} `{libm : LibM} (h h' : Heap) (l : nat)
    (img : Image) (s : float) (v : PyVal) :
  h !! l = Some img ->
  bicubic_filter (PyImg l) s false h = (h', Ret v) ->
  v = PyImg (length h) /\
  exists nw nh d,
    int_of_float (float_of_int (width img) * s) = Ret nw
    /\ int_of_float (float_of_int (height img) * s) = Ret nh
    /\ h' !! length h = Some d /\ width d = nw /\ height d = nh
    /\ forall row col, 0 <= row < nw -> 0 <= col < nh ->
         bicubic_pixel img s row col = Ret (data d row col).
Proof.
  intros Hl E. pose proof (bicubic_scratch_triple h l img s Hl) as T.
  rewrite E in T. destruct T as (-> & nw & nh & Enw & Enh & _ & d & Hd & Hw & Hh & Hp).
  split; [reflexivity | ]. exists nw, nh, d. auto 10.
Qed.

Lemma bicubic_result_contents_witness :
  exists d,
    fst (@bicubic_filter PIL_absent LibM_product (PyImg 0%nat) 2 false [photo]) !! 1%nat
    = Some d
    /\ @bicubic_pixel LibM_product photo 2 3 0 = Ret (data d 3 0).
Proof.
  destruct (@bicubic_result_contents PIL_absent LibM_product [photo]
              (fst (@bicubic_filter PIL_absent LibM_product (PyImg 0%nat) 2 false [photo]))
              0%nat photo 2%float (PyImg 1%nat) eq_refl)
    as (_ & nw & nh & d & Enw & Enh & Hd & _ & _ & Hp).
  - rewrite (run_eta (bicubic_filter (PyImg 0%nat) 2 false) [photo]) at 1.
    f_equal; try (vm_compute; reflexivity).
  - exists d. split; [exact Hd | ].
    assert (Hw : nw = 4) by (vm_compute in Enw; congruence).
    assert (Hh : nh = 4) by (vm_compute in Enh; congruence).
    apply Hp; lia.
Defined.

(** ** C7: the samples of the bicubic resampler outside the image *)

(** C7: whenever the from-scratch bicubic resampler returns, for every
    scale factor and every pixel [(row, col)] of the image it returns, the
    pixel is the clipped, truncated weighted sum over a 4 x 4 table around
    [(int(row / factor), int(col / factor))] in which every sample whose
    coordinate lies outside [0,width) x [0,height) of the source is the
    zero pixel, not a pixel of the border, and every sample inside is the
    pixel of the source. *)
Theorem bicubic_zero_outside `{pil : PIL} `{libm : LibM} (h h' : Heap) (l : nat)
    (img : Image) (scale_factor : float) (v : PyVal) :
  h !! l = Some img ->
  bicubic_filter (PyImg l) scale_factor false h = (h', Ret v) ->
  exists d,
    v = PyImg (length h) /\ h' !! length h = Some d
    /\ forall row col, 0 <= row < width d -> 0 <= col < height d ->
         exists scaled_row scaled_col sr sc table,
           float_div (float_of_int row) scale_factor = Ret scaled_row
           /\ float_div (float_of_int col) scale_factor = Ret scaled_col
           /\ int_of_float scaled_row = Ret sr
           /\ int_of_float scaled_col = Ret sc
           /\ clipped_pixel (weighted_sum table scaled_row scaled_col (sr - 1) (sc - 1))
              = Ret (data d row col)
           /\ forall x_index y_index, (x_index < 4)%nat -> (y_index < 4)%nat ->
                let x_val := sr - 1 + Z.of_nat x_index in
                let y_val := sc - 1 + Z.of_nat y_index in
                (~ (0 <= x_val < width img /\ 0 <= y_val < height img) ->
                   contributions_at table x_index y_index = (0, 0, 0)%float)
                /\ (0 <= x_val < width img /\ 0 <= y_val < height img ->
                     contributions_at table x_index y_index
                     = np_array (data img x_val y_val)).
Proof.
  intros Hl E. pose proof (bicubic_scratch_triple h l img scale_factor Hl) as T.
  rewrite E in T. destruct T as (-> & nw & nh & Enw & Enh & _ & d & Hd & Hw & Hh & Hp).
  exists d. split; [reflexivity | ]. split; [exact Hd | ].
  intros row col Hrow Hcol. rewrite Hw in Hrow. rewrite Hh in Hcol.
  specialize (Hp row col Hrow Hcol). unfold bicubic_pixel in Hp. cbv zeta in Hp.
  unfold mbind, Res_bind in Hp.
  destruct (float_div (float_of_int row) scale_factor) as [scaled_row | e0];
    cbn [res_bind] in Hp; [ | discriminate].
  destruct (float_div (float_of_int col) scale_factor) as [scaled_col | e1];
    cbn [res_bind] in Hp; [ | discriminate].
  destruct (int_of_float scaled_row) as [sr | e2] eqn:Esr; cbn [res_bind] in Hp;
    [ | discriminate].
  destruct (int_of_float scaled_col) as [sc | e3] eqn:Esc; cbn [res_bind] in Hp;
    [ | discriminate].
  exists scaled_row, scaled_col, sr, sc,
    (contributions img (map (fun scale => sr - 1 + scale) (range 4))
       (map (fun scale => sc - 1 + scale) (range 4))).
  split; [reflexivity | ]. split; [reflexivity | ]. split; [exact Esr | ].
  split; [exact Esc | ]. split; [exact Hp | ].
  intros x_index y_index Hx Hy. exact (contributions_entries img sr sc x_index y_index Hx Hy).
Qed.

Lemma bicubic_zero_outside_witness :
  let white := uniform 1 1 (RGB 255 255 255) in
  exists d,
    fst (@bicubic_filter PIL_absent LibM_product (PyImg 0%nat) 2 false [white]) !! 1%nat
    = Some d
    /\ exists table,
         @clipped_pixel
           (@weighted_sum LibM_product table 0.5%float 0.5%float (0 - 1) (0 - 1))
         = Ret (data d 1 1)
         /\ contributions_at table 0 1 = (0, 0, 0)%float
         /\ contributions_at table 1 1 = np_array (RGB 255 255 255)
         /\ data d 1 1 = RGB 80 80 80.
Proof.
  intros white.
  destruct (@bicubic_zero_outside PIL_absent LibM_product [white]
              (fst (@bicubic_filter PIL_absent LibM_product (PyImg 0%nat) 2 false [white]))
              0%nat white 2%float (PyImg 1%nat) eq_refl)
    as (d & _ & Hd & Hp).
  - rewrite (run_eta (bicubic_filter (PyImg 0%nat) 2 false) [white]) at 1.
    f_equal; try (vm_compute; reflexivity).
  - exists d. split; [exact Hd | ].
    assert (Ed : d = {| width := 2; height := 2;
                        data := data d |}).
    { destruct d as [w hh dd]. vm_compute in Hd. injection Hd as <- <- _. reflexivity. }
    assert (Hw : width d = 2) by (rewrite Ed; reflexivity).
    assert (Hh : height d = 2) by (rewrite Ed; reflexivity).
    destruct (Hp 1 1 ltac:(lia) ltac:(lia))
      as (scaled_row & scaled_col & sr & sc & table & E1 & E2 & E3 & E4 & Epix & Htab).
    vm_compute in E1. injection E1 as <-. vm_compute in E2. injection E2 as <-.
    vm_compute in E3. injection E3 as <-. vm_compute in E4. injection E4 as <-.
    exists table. split; [exact Epix | ]. split; [ | split].
    + apply (proj1 (Htab 0%nat 1%nat ltac:(lia) ltac:(lia))). cbn. lia.
    + apply (proj2 (Htab 1%nat 1%nat ltac:(lia) ltac:(lia))). cbn. lia.
    + vm_compute in Hd. injection Hd as <-. reflexivity.
Defined.

(** X3: on an image that exists, the from-scratch bicubic resampler raises
    nothing but [ValueError], [OverflowError] and [MemoryError] (from [int]
    of a NaN or an infinity, and from [Image.new]: a negative size, a size
    that is no C [int], memory refused): its reads are guarded, its writes
    are inside the new image, and it never divides by a zero factor. *)
Theorem bicubic_raises_only `{pil : PIL} `{libm : LibM} (h h' : Heap) (l : nat)
    (img : Image) (s : float) (e : Exn) :
  h !! l = Some img ->
  bicubic_filter (PyImg l) s false h = (h', Raise e) ->
  e = ValueError \/ e = OverflowError \/ e = MemoryError.
Proof.
  intros Hl E. pose proof (bicubic_scratch_triple h l img s Hl) as T.
  rewrite E in T. exact T.
Qed.

Lemma bicubic_raises_only_witness :
  @bicubic_filter PIL_small LibM_product (PyImg 0%nat) 1000000 false [photo]
  = ([photo], Raise MemoryError)
  /\ (MemoryError = ValueError \/ MemoryError = OverflowError \/ MemoryError = MemoryError).
Proof.
  assert (E : @bicubic_filter PIL_small LibM_product (PyImg 0%nat) 1000000 false [photo]
              = ([photo], Raise MemoryError)) by (vm_compute; reflexivity).
  split; [exact E | ].
  exact (@bicubic_raises_only PIL_small LibM_product [photo] [photo] 0%nat photo
           1000000%float MemoryError eq_refl E).
Defined.

(** X4: on an image that exists, the from-scratch bilinear resampler raises
    nothing but [ValueError], [OverflowError], [MemoryError] (the last from
    [Image.new] only), [IndexError] and, on an image that is not RGB,
    [TypeError]; in particular never [ZeroDivisionError]. *)
Theorem bilinear_raises_only `{pil : PIL} (h h' : Heap) (l : nat) (img : Image)
    (s : float) (e : Exn) :
  h !! l = Some img ->
  bilinear_filter (PyImg l) s false h = (h', Raise e) ->
  (e = ValueError \/ e = OverflowError \/ e = MemoryError \/ e = IndexError
   \/ (e = TypeError /\ ~ is_rgb img))
  /\ e <> ZeroDivisionError.
Proof.
  intros Hl E. pose proof (bilinear_scratch_triple h l img s Hl) as T.
  rewrite E in T. split; [exact T | ].
  destruct T as [-> | [-> | [-> | [-> | [-> _]]]]]; discriminate.
Qed.

Lemma bilinear_raises_only_witness :
  @bilinear_filter PIL_absent (PyImg 0%nat) 1 false [uniform 1 1 (Lum 7)]
  = ([uniform 1 1 (Lum 7); uniform 1 1 (RGB 0 0 0)], Raise TypeError)
  /\ ((TypeError = ValueError \/ TypeError = OverflowError \/ TypeError = MemoryError
       \/ TypeError = IndexError
       \/ (TypeError = TypeError /\ ~ is_rgb (uniform 1 1 (Lum 7))))
      /\ TypeError <> ZeroDivisionError).
Proof.
  assert (E : @bilinear_filter PIL_absent (PyImg 0%nat) 1 false [uniform 1 1 (Lum 7)]
              = ([uniform 1 1 (Lum 7); uniform 1 1 (RGB 0 0 0)], Raise TypeError))
    by (vm_compute; reflexivity).
  split; [exact E | ].
  exact (@bilinear_raises_only PIL_absent [uniform 1 1 (Lum 7)]
           [uniform 1 1 (Lum 7); uniform 1 1 (RGB 0 0 0)] 0%nat (uniform 1 1 (Lum 7))
           1%float TypeError eq_refl E).
Defined.

(** ** Scale factors at the edge *)

Lemma int_of_mul_zero_cases (a s : float) :
  PrimFloat.eqb s 0 = true ->
  int_of_float (a * s) = Ret 0 \/ int_of_float (a * s) = Raise ValueError.
Proof.
  intros Hs. destruct (eqb_zero s Hs) as [b Eb].
  unfold int_of_float. rewrite FloatAxioms.mul_spec, Eb. unfold SF64mul.
  destruct (Prim2SF a) as [c | c | | c m e]; cbn; auto.
Qed.

(** X5: with a scale factor of zero the from-scratch resamplers divide
    nothing: they build an empty 0 x 0 image (bicubic returns it, bilinear
    returns its input), or raise [ValueError] with the heap untouched when
    a size of the image is too large for [int]. *)
Theorem resamplers_at_zero_scale `{pil : PIL} `{libm : LibM} (h : Heap) (l : nat)
    (img : Image) (s : float) :
  h !! l = Some img -> PrimFloat.eqb s 0 = true ->
  ((exists d, bilinear_filter (PyImg l) s false h = (h ++ [d], Ret (PyImg l))
              /\ width d = 0 /\ height d = 0)
   \/ bilinear_filter (PyImg l) s false h = (h, Raise ValueError))
  /\ ((exists d, bicubic_filter (PyImg l) s false h = (h ++ [d], Ret (PyImg (length h)))
                 /\ width d = 0 /\ height d = 0)
      \/ bicubic_filter (PyImg l) s false h = (h, Raise ValueError)).
Proof.
  intros Hl Hs.
  pose proof (int_of_mul_zero_cases (float_of_int (width img)) s Hs) as Hw.
  pose proof (int_of_mul_zero_cases (float_of_int (height img)) s Hs) as Hh.
  split.
  - unfold bilinear_filter. cbv zeta. cbn [as_image]. rewrite ret_bind, load_bind, Hl.
    rewrite lift_bind. destruct Hw as [-> | ->]; [ | right; reflexivity].
    rewrite lift_bind. destruct Hh as [-> | ->]; [ | right; reflexivity].
    left. eexists. split; [reflexivity | split; reflexivity].
  - unfold bicubic_filter. cbv zeta. cbn [as_image]. rewrite ret_bind, load_bind, Hl.
    rewrite lift_bind. destruct Hw as [-> | ->]; [ | right; reflexivity].
    rewrite lift_bind. destruct Hh as [-> | ->]; [ | right; reflexivity].
    left. eexists. split; [reflexivity | split; reflexivity].
Qed.

Lemma resamplers_at_zero_scale_witness :
  exists d, @bicubic_filter PIL_absent LibM_product (PyImg 0%nat) 0 false [photo]
            = ([photo] ++ [d], Ret (PyImg 1%nat))
            /\ width d = 0 /\ height d = 0.
Proof.
  destruct (@resamplers_at_zero_scale PIL_absent LibM_product [photo] 0%nat photo 0%float
              eq_refl eq_refl) as [_ [H | H]].
  - exact H.
  - vm_compute in H. discriminate H.
Defined.

(** X6: with a NaN scale factor both from-scratch resamplers raise
    [ValueError] at once: nothing is allocated and the heap is untouched. *)
Theorem resamplers_at_nan_scale `{pil : PIL} `{libm : LibM} (h : Heap) (l : nat)
    (img : Image) (s : float) :
  h !! l = Some img -> PrimFloat.is_nan s = true ->
  bilinear_filter (PyImg l) s false h = (h, Raise ValueError)
  /\ bicubic_filter (PyImg l) s false h = (h, Raise ValueError).
Proof.
  intros Hl Hs. split.
  - unfold bilinear_filter. cbv zeta. cbn [as_image]. rewrite ret_bind, load_bind, Hl.
    rewrite lift_bind, (int_of_mul_nan _ s Hs). reflexivity.
  - unfold bicubic_filter. cbv zeta. cbn [as_image]. rewrite ret_bind, load_bind, Hl.
    rewrite lift_bind, (int_of_mul_nan _ s Hs). reflexivity.
Qed.

Lemma resamplers_at_nan_scale_witness :
  @bilinear_filter PIL_absent (PyImg 0%nat) nan false [photo] = ([photo], Raise ValueError)
  /\ @bicubic_filter PIL_absent LibM_product (PyImg 0%nat) nan false [photo]
     = ([photo], Raise ValueError).
Proof.
  apply (@resamplers_at_nan_scale PIL_absent LibM_product [photo] 0%nat photo nan);
    reflexivity.
Defined.

(** ** The cubic kernel *)

(** X7: whatever the C library's [pow] computes, the kernel [cubic] is zero
    at every offset of magnitude 2 or more, infinite ones included, and at
    a NaN offset. *)
Theorem cubic_support `{libm : LibM} (d : float) :
  PrimFloat.leb 2 (abs d) = true \/ PrimFloat.is_nan d = true ->
  cubic d = 0%float.
Proof.
  intros Hd.
  assert (H1 : fscaled 1%float = Some (1 * 2 ^ 1074)) by (vm_compute; reflexivity).
  assert (H2 : fscaled 2%float = Some (2 * 2 ^ 1074)) by (vm_compute; reflexivity).
  assert (Hcmp : PrimFloat.leb (abs d) 1 = false
                 /\ (PrimFloat.ltb 1 (abs d) && PrimFloat.ltb (abs d) 2 = false)).
  { destruct Hd as [Hd | Hd].
    - assert (Hfin : (exists c, fscaled (abs d) = Some c)
                     \/ Prim2SF (abs d) = S754_infinity false).
      { rewrite FloatAxioms.leb_spec in Hd. change (Prim2SF 2) with
          (S754_finite false 4503599627370496 (-51)) in Hd.
        unfold fscaled. unfold SFleb in Hd.
        destruct (Prim2SF (abs d)) as [b | b | | b m e]; cbn [scaled]; eauto.
        - destruct b; [discriminate Hd | auto].
        - discriminate Hd. }
      destruct Hfin as [[c Hc] | Hinf].
      + rewrite (FloatFacts.leb_fscaled 2 (abs d) _ _ H2 Hc) in Hd. apply Z.leb_le in Hd.
        rewrite (FloatFacts.leb_fscaled (abs d) 1 _ _ Hc H1).
        rewrite (FloatFacts.ltb_fscaled (abs d) 2 _ _ Hc H2).
        assert (0 < 2 ^ 1074) by (apply Z.pow_pos_nonneg; lia).
        split.
        * apply Z.leb_gt. lia.
        * apply andb_false_intro2. apply Z.ltb_ge. lia.
      + rewrite FloatAxioms.leb_spec, !FloatAxioms.ltb_spec, Hinf.
        change (Prim2SF 1) with (S754_finite false 4503599627370496 (-52)).
        change (Prim2SF 2) with (S754_finite false 4503599627370496 (-51)).
        split; reflexivity.
    - apply is_nan_spec in Hd.
      rewrite FloatAxioms.leb_spec, !FloatAxioms.ltb_spec, FloatAxioms.abs_spec, Hd.
      split; reflexivity. }
  destruct Hcmp as [Hle Hlt]. unfold cubic. cbv zeta. rewrite Hle, Hlt. reflexivity.
Qed.

Lemma cubic_support_witness : @cubic LibM_product (- 2.5)%float = 0%float.
Proof.
  apply (@cubic_support LibM_product (- 2.5)%float). left. reflexivity.
Defined.

(** ** More on the from-scratch grayscale and thresholder *)

Lemma luminance_of_gray (Y : Z) :
  0 <= Y <= 255 -> luminance Y Y Y = Ret (Z.max 0 (Y - 1)).
Proof.
  intros HY. destruct (luminance_8bit Y Y Y HY HY HY) as (y & E & Hy & Hexact).
  rewrite E. f_equal.
  unfold exact_luminance, weighted in Hexact.
  assert (Hdiv : (2989 * Y + 5870 * Y + 1140 * Y) / 10000 = Z.max 0 (Y - 1)
                 /\ (1 <= Y -> (2989 * Y + 5870 * Y + 1140 * Y) mod 10000 <> 0)).
  { Z.div_mod_to_equations. lia. }
  destruct Hdiv as [Hq Hm]. rewrite Hq in Hexact.
  destruct Hexact as [-> | [Hmod ->]]; [reflexivity | ].
  destruct (Z.eq_dec Y 0) as [-> | HY0]; [lia | ].
  exfalso. apply Hm; [lia | exact Hmod].
Qed.

Lemma luminance_below_255 (r g b y : Z) :
  0 <= r <= 255 -> 0 <= g <= 255 -> 0 <= b <= 255 ->
  luminance r g b = Ret y -> 0 <= y <= 254.
Proof.
  intros Hr Hg Hb E. destruct (luminance_8bit r g b Hr Hg Hb) as (y' & E' & Hy & Hexact).
  rewrite E in E'. injection E' as <-.
  destruct (weighted_bounds r g b Hr Hg Hb) as [_ Hq]. lia.
Qed.

Lemma gray_image_in_range (img img' : Image) :
  channels_in_range img ->
  width img' = width img -> height img' = height img ->
  (forall x y, in_bounds img x y = true -> data img' x y = gray_pixel (data img x y)) ->
  channels_in_range img'.
Proof.
  intros Hrange Hw Hh Hd x y B.
  rewrite (in_bounds_dims img' img x y Hw Hh) in B. rewrite (Hd x y B).
  destruct (Hrange x y B) as (r & g & b & -> & Hr & Hg & Hb).
  destruct (gray_pixel_in_range r g b Hr Hg Hb) as (Y & -> & HY).
  exists Y, Y, Y. auto.
Qed.

(** X8: the from-scratch grayscale never produces 255, and it is not
    idempotent: on an image with 8-bit channels every luminance it writes is
    at most 254, and a second pass over the result lowers every non-zero
    luminance by one more. *)
Theorem to_grayscale_twice `{pil : PIL} (h : Heap) (l : nat) (img : Image) :
  h !! l = Some img -> channels_in_range img ->
  exists img1 img2,
    to_grayscale (PyImg l) false h = (<[l := img1]> h, Ret (PyImg l))
    /\ to_grayscale (PyImg l) false (<[l := img1]> h) = (<[l := img2]> h, Ret (PyImg l))
    /\ forall x y, in_bounds img x y = true ->
         exists Y, data img1 x y = RGB Y Y Y /\ 0 <= Y <= 254
                   /\ data img2 x y = RGB (Z.max 0 (Y - 1)) (Z.max 0 (Y - 1)) (Z.max 0 (Y - 1)).
Proof.
  intros Hl Hrange.
  destruct (to_grayscale_scratch h l img Hl Hrange) as (img1 & E1 & Hw1 & Hh1 & Hd1).
  assert (Hl1 : <[l := img1]> h !! l = Some img1).
  { apply list_lookup_insert_eq. eapply lookup_lt_Some. exact Hl. }
  pose proof (gray_image_in_range img img1 Hrange Hw1 Hh1 Hd1) as Hrange1.
  destruct (to_grayscale_scratch _ l img1 Hl1 Hrange1) as (img2 & E2 & Hw2 & Hh2 & Hd2).
  rewrite list_insert_insert_eq in E2.
  exists img1, img2. split; [exact E1 | ]. split; [exact E2 | ].
  intros x y B.
  assert (B1 : in_bounds img1 x y = true) by (rewrite (in_bounds_dims img1 img); assumption).
  destruct (Hrange x y B) as (r & g & b & Ep & Hr & Hg & Hb).
  destruct (luminance_8bit r g b Hr Hg Hb) as (Y & EY & HY & _).
  assert (E1p : data img1 x y = RGB Y Y Y).
  { rewrite (Hd1 x y B), Ep. cbn [gray_pixel]. rewrite EY. reflexivity. }
  exists Y. split; [exact E1p | ]. split.
  - exact (luminance_below_255 r g b Y Hr Hg Hb EY).
  - rewrite (Hd2 x y B1), E1p. cbn [gray_pixel].
    rewrite (luminance_of_gray Y HY). reflexivity.
Qed.

Lemma to_grayscale_twice_witness :
  exists img1 img2 Y,
    @to_grayscale PIL_absent (PyImg 0%nat) false [uniform 1 1 (RGB 255 255 255)]
    = (<[0%nat := img1]> [uniform 1 1 (RGB 255 255 255)], Ret (PyImg 0%nat))
    /\ data img1 0 0 = RGB Y Y Y /\ 0 <= Y <= 254
    /\ data img2 0 0 = RGB (Z.max 0 (Y - 1)) (Z.max 0 (Y - 1)) (Z.max 0 (Y - 1)).
Proof.
  destruct (@to_grayscale_twice PIL_absent [uniform 1 1 (RGB 255 255 255)] 0%nat
              (uniform 1 1 (RGB 255 255 255)) eq_refl) as (img1 & img2 & E1 & _ & Hp).
  - intros x y _. exists 255, 255, 255. cbn. repeat split; lia.
  - destruct (Hp 0 0 eq_refl) as (Y & H1 & HY & H2).
    exists img1, img2, Y. split; [exact E1 | ]. split; [exact H1 | ].
    split; [exact HY | exact H2].
Defined.

(** X9: grayscale followed by threshold, both from scratch, on an image
    with 8-bit channels: the image comes back, the same object, with each
    pixel black when the luminance of the original pixel is below the
    threshold and white otherwise. *)
Theorem grayscale_then_threshold `{pil : PIL} (h : Heap) (l : nat) (img : Image) (T : Z) :
  h !! l = Some img -> channels_in_range img ->
  exists img2,
    (to_grayscale (PyImg l) false ≫= fun image => binary_threshold image T false) h
    = (<[l := img2]> h, Ret (PyImg l))
    /\ width img2 = width img /\ height img2 = height img
    /\ forall x y r g b, in_bounds img x y = true -> data img x y = RGB r g b ->
         exists Y, luminance r g b = Ret Y
           /\ data img2 x y = if Y <? T then RGB 0 0 0 else RGB 255 255 255.
Proof.
  intros Hl Hrange.
  destruct (to_grayscale_scratch h l img Hl Hrange) as (img1 & E1 & Hw1 & Hh1 & Hd1).
  assert (Hl1 : <[l := img1]> h !! l = Some img1).
  { apply list_lookup_insert_eq. eapply lookup_lt_Some. exact Hl. }
  pose proof (gray_image_in_range img img1 Hrange Hw1 Hh1 Hd1) as Hrange1.
  destruct (binary_threshold_scratch _ l img1 T Hl1 (channels_in_range_rgb img1 Hrange1))
    as (img2 & E2 & Hw2 & Hh2 & Hd2).
  rewrite list_insert_insert_eq in E2.
  exists img2. split; [rewrite (bind_ret _ _ _ _ _ E1); exact E2 | ].
  split; [congruence | ]. split; [congruence | ].
  intros x y r g b B Ep.
  assert (B1 : in_bounds img1 x y = true) by (rewrite (in_bounds_dims img1 img); assumption).
  destruct (Hrange x y B) as (r' & g' & b' & Ep' & Hr & Hg & Hb).
  rewrite Ep in Ep'. injection Ep' as <- <- <-.
  destruct (luminance_8bit r g b Hr Hg Hb) as (Y & EY & _).
  exists Y. split; [exact EY | ].
  rewrite (Hd2 x y B1), (Hd1 x y B), Ep. cbn [gray_pixel]. rewrite EY. reflexivity.
Qed.

Lemma grayscale_then_threshold_witness :
  exists img2,
    (@to_grayscale PIL_absent (PyImg 0%nat) false
       ≫= fun image => @binary_threshold PIL_absent image 128 false)
      [uniform 1 1 (RGB 0 255 0)]
    = (<[0%nat := img2]> [uniform 1 1 (RGB 0 255 0)], Ret (PyImg 0%nat))
    /\ width img2 = 1.
Proof.
  destruct (@grayscale_then_threshold PIL_absent [uniform 1 1 (RGB 0 255 0)] 0%nat
              (uniform 1 1 (RGB 0 255 0)) 128 eq_refl) as (img2 & E & Hw & _).
  - intros x y _. exists 0, 255, 0. cbn. repeat split; lia.
  - exists img2. split; [exact E | exact Hw].
Defined.

Lemma threshold_pixel_idem (T r g b : Z) :
  0 <= r <= 255 ->
  threshold_pixel T (threshold_pixel T (RGB r g b)) = threshold_pixel T (RGB r g b).
Proof.
  intros Hr. cbn [threshold_pixel].
  destruct (Z.ltb_spec r T); cbn [threshold_pixel].
  - destruct (Z.ltb_spec 0 T); [reflexivity | lia].
  - destruct (Z.ltb_spec 255 T); [lia | reflexivity].
Qed.

(** X10: the from-scratch thresholder is idempotent on an image with 8-bit
    channels: a second pass with the same threshold changes no pixel. *)
Theorem binary_threshold_idempotent `{pil : PIL} (h : Heap) (l : nat) (img : Image) (T : Z) :
  h !! l = Some img -> channels_in_range img ->
  exists img1 img2,
    binary_threshold (PyImg l) T false h = (<[l := img1]> h, Ret (PyImg l))
    /\ binary_threshold (PyImg l) T false (<[l := img1]> h) = (<[l := img2]> h, Ret (PyImg l))
    /\ forall x y, in_bounds img x y = true -> data img2 x y = data img1 x y.
Proof.
  intros Hl Hrange.
  destruct (binary_threshold_scratch h l img T Hl (channels_in_range_rgb img Hrange))
    as (img1 & E1 & Hw1 & Hh1 & Hd1).
  assert (Hl1 : <[l := img1]> h !! l = Some img1).
  { apply list_lookup_insert_eq. eapply lookup_lt_Some. exact Hl. }
  assert (Hrgb1 : is_rgb img1).
  { intros x y B. rewrite (in_bounds_dims img1 img x y Hw1 Hh1) in B. rewrite (Hd1 x y B).
    destruct (Hrange x y B) as (r & g & b & -> & _). cbn [threshold_pixel].
    destruct (r <? T); eauto. }
  destruct (binary_threshold_scratch _ l img1 T Hl1 Hrgb1) as (img2 & E2 & Hw2 & Hh2 & Hd2).
  rewrite list_insert_insert_eq in E2.
  exists img1, img2. split; [exact E1 | ]. split; [exact E2 | ].
  intros x y B.
  assert (B1 : in_bounds img1 x y = true) by (rewrite (in_bounds_dims img1 img); assumption).
  rewrite (Hd2 x y B1), (Hd1 x y B).
  destruct (Hrange x y B) as (r & g & b & -> & Hr & _).
  apply threshold_pixel_idem. exact Hr.
Qed.

Lemma binary_threshold_idempotent_witness :
  exists img1 img2,
    @binary_threshold PIL_absent (PyImg 0%nat) 128 false [uniform 2 2 (RGB 10 200 30)]
    = (<[0%nat := img1]> [uniform 2 2 (RGB 10 200 30)], Ret (PyImg 0%nat))
    /\ data img2 1 1 = data img1 1 1.
Proof.
  destruct (@binary_threshold_idempotent PIL_absent [uniform 2 2 (RGB 10 200 30)] 0%nat
              (uniform 2 2 (RGB 10 200 30)) 128 eq_refl) as (img1 & img2 & E1 & _ & Hp).
  - intros x y _. exists 10, 200, 30. cbn. repeat split; lia.
  - exists img1, img2. split; [exact E1 | exact (Hp 1 1 eq_refl)].
Defined.

(** X11: the from-scratch thresholder reads the first channel only: two RGB
    images of one size whose first channels agree get the same pixels,
    whatever their other channels hold. *)
Theorem binary_threshold_first_channel `{pil : PIL} (h h' : Heap) (l l' : nat)
    (img img' : Image) (T : Z) :
  h !! l = Some img -> h' !! l' = Some img' ->
  is_rgb img -> is_rgb img' ->
  width img' = width img -> height img' = height img ->
  (forall x y, in_bounds img x y = true ->
     channel (data img x y) 0 = channel (data img' x y) 0) ->
  exists out out',
    binary_threshold (PyImg l) T false h = (<[l := out]> h, Ret (PyImg l))
    /\ binary_threshold (PyImg l') T false h' = (<[l' := out']> h', Ret (PyImg l'))
    /\ forall x y, in_bounds img x y = true -> data out x y = data out' x y.
Proof.
  intros Hl Hl' Hrgb Hrgb' Hw Hh Hsame.
  destruct (binary_threshold_scratch h l img T Hl Hrgb) as (out & E & _ & _ & Hd).
  destruct (binary_threshold_scratch h' l' img' T Hl' Hrgb') as (out' & E' & _ & _ & Hd').
  exists out, out'. split; [exact E | ]. split; [exact E' | ].
  intros x y B.
  assert (B' : in_bounds img' x y = true) by (rewrite (in_bounds_dims img' img); assumption).
  rewrite (Hd x y B), (Hd' x y B'). specialize (Hsame x y B).
  destruct (Hrgb x y B) as (r & g & b & Ep), (Hrgb' x y B') as (r' & g' & b' & Ep').
  rewrite Ep, Ep' in *. cbn in Hsame. injection Hsame as ->. reflexivity.
Qed.

Lemma binary_threshold_first_channel_witness :
  exists out out',
    @binary_threshold PIL_absent (PyImg 0%nat) 128 false [uniform 1 1 (RGB 0 255 0)]
    = (<[0%nat := out]> [uniform 1 1 (RGB 0 255 0)], Ret (PyImg 0%nat))
    /\ @binary_threshold PIL_absent (PyImg 0%nat) 128 false [uniform 1 1 (RGB 0 0 0)]
       = (<[0%nat := out']> [uniform 1 1 (RGB 0 0 0)], Ret (PyImg 0%nat))
    /\ data out 0 0 = data out' 0 0.
Proof.
  destruct (@binary_threshold_first_channel PIL_absent
              [uniform 1 1 (RGB 0 255 0)] [uniform 1 1 (RGB 0 0 0)] 0%nat 0%nat
              (uniform 1 1 (RGB 0 255 0)) (uniform 1 1 (RGB 0 0 0)) 128 eq_refl eq_refl)
    as (out & out' & E & E' & Hp).
  - intros x y _. exists 0, 255, 0. reflexivity.
  - intros x y _. exists 0, 0, 0. reflexivity.
  - reflexivity.
  - reflexivity.
  - intros x y _. reflexivity.
  - exists out, out'. split; [exact E | ]. split; [exact E' | exact (Hp 0 0 eq_refl)].
Defined.

(** ** The in-place stages and the rest of the heap *)

Lemma untouched_putpixel (h : Heap) (l : nat) (x y : Z) (p : Pixel) :
  preserves (fun hh => length hh = length h /\ forall l', l' <> l -> hh !! l' = h !! l')
    (putpixel l x y p).
Proof.
  apply preserves_putpixel. intros hh img [Hlen Hother] _ _. split.
  - rewrite length_insert. exact Hlen.
  - intros l' Hne. rewrite list_lookup_insert_ne by auto. apply Hother. exact Hne.
Qed.

(** X12: the from-scratch grayscale and thresholder touch the image they
    are given and nothing else: whether they return or raise, no image is
    created and every other image on the heap is as it was. *)
Theorem inplace_stages_frame `{pil : PIL} (h : Heap) (l : nat) (T : Z) :
  (length (fst (to_grayscale (PyImg l) false h)) = length h
   /\ forall l', l' <> l -> fst (to_grayscale (PyImg l) false h) !! l' = h !! l')
  /\ (length (fst (binary_threshold (PyImg l) T false h)) = length h
      /\ forall l', l' <> l -> fst (binary_threshold (PyImg l) T false h) !! l' = h !! l').
Proof.
  set (P := fun hh : Heap => length hh = length h /\ forall l', l' <> l -> hh !! l' = h !! l').
  assert (P0 : P h) by (split; [reflexivity | auto]).
  split.
  - change (P (fst (to_grayscale (PyImg l) false h))).
    unfold to_grayscale. cbn [as_image]. rewrite ret_bind, load_bind.
    destruct (h !! l) as [img | ]; [ | exact P0].
    refine (preserves_bind P _ _ _ _ h P0); [ | intros u; apply preserves_ret].
    apply preserves_for_each. intros row _. apply preserves_for_each. intros col _.
    apply preserves_getpixel_bind. intros p.
    apply preserves_lift_bind. intros [[red green] blue] _.
    apply preserves_lift_bind. intros gray _.
    apply untouched_putpixel.
  - change (P (fst (binary_threshold (PyImg l) T false h))).
    unfold binary_threshold. cbn [as_image]. rewrite ret_bind, load_bind.
    destruct (h !! l) as [img | ]; [ | exact P0].
    refine (preserves_bind P _ _ _ _ h P0); [ | intros u; apply preserves_ret].
    apply preserves_for_each. intros row _. apply preserves_for_each. intros col _.
    apply preserves_getpixel_bind. intros p.
    apply preserves_lift_bind. intros gray_value _.
    destruct (gray_value <? T); apply untouched_putpixel.
Qed.

(** ** Images without pixels, images of one band *)

Lemma range_nonpos (n : Z) : n <= 0 -> range n = [].
Proof. intros Hn. unfold range. replace (Z.to_nat n) with 0%nat by lia. reflexivity. Qed.

Lemma range_pos (n : Z) : 0 < n -> exists rest, range n = 0 :: rest.
Proof.
  intros Hn. unfold range. destruct (Z.to_nat n) as [ | k] eqn:E; [lia | ].
  cbn. eauto.
Qed.

Lemma for_each_nop {A} (xs : list A) (body : A -> M unit) (h : Heap) :
  (forall x, body x h = (h, Ret tt)) -> for_each xs body h = (h, Ret tt).
Proof.
  intros Hb. induction xs as [ | x xs IH]; cbn [for_each]; [reflexivity | ].
  rewrite (bind_ret _ _ _ _ _ (Hb x)). exact IH.
Qed.

(** X13: on an image without pixels (no columns or no rows) the
    from-scratch grayscale and thresholder return the image at once and
    leave the heap as it is, whatever the mode of the image. *)
Theorem scratch_stages_on_empty_image `{pil : PIL} (h : Heap) (l : nat) (img : Image)
    (T : Z) :
  h !! l = Some img -> width img <= 0 \/ height img <= 0 ->
  to_grayscale (PyImg l) false h = (h, Ret (PyImg l))
  /\ binary_threshold (PyImg l) T false h = (h, Ret (PyImg l)).
Proof.
  intros Hl Hempty. split.
  - unfold to_grayscale. cbn [as_image]. rewrite ret_bind, load_bind, Hl.
    apply bind_ret with (h' := h) (a := tt).
    destruct Hempty as [Hw | Hh].
    + rewrite (range_nonpos _ Hw). reflexivity.
    + apply for_each_nop. intros row. rewrite (range_nonpos _ Hh). reflexivity.
  - unfold binary_threshold. cbn [as_image]. rewrite ret_bind, load_bind, Hl.
    apply bind_ret with (h' := h) (a := tt).
    destruct Hempty as [Hw | Hh].
    + rewrite (range_nonpos _ Hw). reflexivity.
    + apply for_each_nop. intros row. rewrite (range_nonpos _ Hh). reflexivity.
Qed.

Lemma scratch_stages_on_empty_image_witness :
  @to_grayscale PIL_absent (PyImg 0%nat) false [uniform 3 0 (Lum 9)]
  = ([uniform 3 0 (Lum 9)], Ret (PyImg 0%nat))
  /\ @binary_threshold PIL_absent (PyImg 0%nat) 128 false [uniform 3 0 (Lum 9)]
     = ([uniform 3 0 (Lum 9)], Ret (PyImg 0%nat)).
Proof.
  apply (@scratch_stages_on_empty_image PIL_absent [uniform 3 0 (Lum 9)] 0%nat
           (uniform 3 0 (Lum 9)) 128); [reflexivity | ].
  right. cbn. lia.
Defined.

(** X14: on a single-band image that has pixels the from-scratch grayscale
    and thresholder raise [TypeError] at the first pixel, before writing
    anything: the heap is as it was. *)
Theorem scratch_stages_on_single_band `{pil : PIL} (h : Heap) (l : nat) (img : Image)
    (T v : Z) :
  h !! l = Some img -> 0 < width img -> 0 < height img -> data img 0 0 = Lum v ->
  to_grayscale (PyImg l) false h = (h, Raise TypeError)
  /\ binary_threshold (PyImg l) T false h = (h, Raise TypeError).
Proof.
  intros Hl Hw Hh Hp.
  destruct (range_pos _ Hw) as [rw Erw]. destruct (range_pos _ Hh) as [rh Erh].
  assert (B : in_bounds img 0 0 = true).
  { unfold in_bounds. repeat (apply andb_true_intro; split);
      first [apply Z.leb_le | apply Z.ltb_lt]; lia. }
  split.
  - unfold to_grayscale. cbn [as_image]. rewrite ret_bind, load_bind, Hl.
    rewrite Erw, Erh. cbn [for_each].
    apply bind_raise. apply bind_raise. apply bind_raise.
    rewrite (getpixel_bind l 0 0 _ h img Hl B), Hp. reflexivity.
  - unfold binary_threshold. cbn [as_image]. rewrite ret_bind, load_bind, Hl.
    rewrite Erw, Erh. cbn [for_each].
    apply bind_raise. apply bind_raise. apply bind_raise.
    rewrite (getpixel_bind l 0 0 _ h img Hl B), Hp. reflexivity.
Qed.

Lemma scratch_stages_on_single_band_witness :
  @to_grayscale PIL_absent (PyImg 0%nat) false [uniform 2 2 (Lum 200)]
  = ([uniform 2 2 (Lum 200)], Raise TypeError)
  /\ @binary_threshold PIL_absent (PyImg 0%nat) 128 false [uniform 2 2 (Lum 200)]
     = ([uniform 2 2 (Lum 200)], Raise TypeError).
Proof.
  apply (@scratch_stages_on_single_band PIL_absent [uniform 2 2 (Lum 200)] 0%nat
           (uniform 2 2 (Lum 200)) 128 200); [reflexivity | cbn; lia | cbn; lia | reflexivity].
Defined.

(** ** The pipeline of lines 251-254 and the heap *)

Lemma to_grayscale_fast_shape `{pil : PIL} (h : Heap) (image : PyVal) :
  (exists e, to_grayscale image true h = (h, Raise e))
  \/ (exists img', to_grayscale image true h = (h ++ [img'], Ret (PyImg (length h)))).
Proof.
  unfold to_grayscale.
  destruct image as [ | l | s | f]; try (left; eexists; reflexivity).
  cbn [as_image]. rewrite ret_bind, load_bind.
  destruct (h !! l) as [img | ]; [ | left; eexists; reflexivity].
  rewrite lift_bind. destruct (Image_convert_L img) as [img' | e].
  - right. exists img'. reflexivity.
  - left. eexists. reflexivity.
Qed.

Lemma binary_threshold_fast_shape `{pil : PIL} (h : Heap) (image : PyVal) (T : Z) :
  (exists e, binary_threshold image T true h = (h, Raise e))
  \/ (exists img', binary_threshold image T true h = (h ++ [img'], Ret (PyImg (length h)))).
Proof.
  unfold binary_threshold.
  destruct image as [ | l | s | f]; try (left; eexists; reflexivity).
  cbn [as_image]. rewrite ret_bind, load_bind.
  destruct (h !! l) as [img | ]; [ | left; eexists; reflexivity].
  rewrite lift_bind. destruct (Image_point_1 (threshold_point T) img) as [img' | e].
  - right. exists img'. reflexivity.
  - left. eexists. reflexivity.
Qed.

Lemma thumbnail_shape `{pil : PIL} (h : Heap) (l : nat) (size : Z * Z) (resample : Resample) :
  (exists e, thumbnail (PyImg l) size resample h = (h, Raise e))
  \/ (exists img', thumbnail (PyImg l) size resample h = (<[l := img']> h, Ret PyNone)).
Proof.
  unfold thumbnail. cbn [as_image]. rewrite ret_bind, load_bind.
  destruct (h !! l) as [img | ]; [ | left; eexists; reflexivity].
  rewrite lift_bind. destruct (Image_thumbnail size resample img) as [img' | e].
  - right. exists img'. reflexivity.
  - left. eexists. reflexivity.
Qed.

Lemma keeps_insert_fresh (h h' : Heap) (l : nat) (img : Image) :
  keeps h h' -> (length h <= l)%nat -> keeps h (<[l := img]> h').
Proof.
  intros Hk Hl l0 im Hl0. rewrite list_lookup_insert_ne; [apply Hk; exact Hl0 | ].
  apply lookup_lt_Some in Hl0. lia.
Qed.

(** X15: the pipeline of lines 251-254 works on copies: whatever PIL does
    and however the pipeline ends, every image that was on the heap before
    the call is as it was, and at most two images have been created. *)
Theorem preprocess_works_on_copies `{pil : PIL} `{libm : LibM} (image : PyVal) (h : Heap) :
  keeps h (fst (preprocess image h))
  /\ (length h <= length (fst (preprocess image h)) <= length h + 2)%nat.
Proof.
  unfold preprocess.
  destruct (to_grayscale_fast_shape h image) as [[e1 E1] | [g E1]].
  { rewrite (bind_raise _ _ _ _ _ E1). cbn [fst]. split; [apply keeps_refl | lia]. }
  rewrite (bind_ret _ _ _ _ _ E1).
  destruct (binary_threshold_fast_shape (h ++ [g]) (PyImg (length h)) default_threshold)
    as [[e2 E2] | [b E2]].
  { rewrite (bind_raise _ _ _ _ _ E2). cbn [fst].
    split; [apply keeps_alloc | rewrite length_app; cbn; lia]. }
  rewrite (bind_ret _ _ _ _ _ E2).
  assert (K : keeps h ((h ++ [g]) ++ [b])).
  { intros l0 im Hl0. apply lookup_app_l_Some, lookup_app_l_Some. exact Hl0. }
  destruct (thumbnail_shape ((h ++ [g]) ++ [b]) (length (h ++ [g])) (300, 300) BILINEAR)
    as [[e3 E3] | [t E3]].
  { assert (R : bilinear_filter (PyImg (length (h ++ [g]))) (float_of_int 2) true
                  ((h ++ [g]) ++ [b]) = ((h ++ [g]) ++ [b], Raise e3)).
    { unfold bilinear_filter. apply bind_raise. exact E3. }
    rewrite (bind_raise _ _ _ _ _ R). cbn [fst].
    split; [exact K | rewrite !length_app; cbn; lia]. }
  assert (R : bilinear_filter (PyImg (length (h ++ [g]))) (float_of_int 2) true
                ((h ++ [g]) ++ [b])
              = (<[length (h ++ [g]) := t]> ((h ++ [g]) ++ [b]), Ret PyNone)).
  { unfold bilinear_filter. rewrite (bind_ret _ _ _ _ _ E3). reflexivity. }
  rewrite (bind_ret _ _ _ _ _ R), bind_unfold, bicubic_fast_none. cbn [fst]. split.
  - apply keeps_insert_fresh; [exact K | rewrite length_app; lia].
  - rewrite length_insert, !length_app. cbn. lia.
Qed.

(** X16: when the three PIL calls of the pipeline succeed on an image that
    exists, the pipeline ends in the [AttributeError] of the fourth stage,
    having put two images on the heap: the grayscale copy, and the
    thresholded copy shrunk in place by [thumbnail]. *)
Theorem preprocess_with_working_pil `{pil : PIL} `{libm : LibM} (h : Heap) (l : nat)
    (img gray bw small : Image) :
  h !! l = Some img ->
  Image_convert_L img = Ret gray ->
  Image_point_1 (threshold_point default_threshold) gray = Ret bw ->
  Image_thumbnail (300, 300) BILINEAR bw = Ret small ->
  preprocess (PyImg l) h = (h ++ [gray; small], Raise AttributeError).
Proof.
  intros Hl Eg Eb Et.
  assert (L1 : (h ++ [gray]) !! length h = Some gray).
  { rewrite lookup_app_r by lia. rewrite Nat.sub_diag. reflexivity. }
  assert (L2 : ((h ++ [gray]) ++ [bw]) !! length (h ++ [gray]) = Some bw).
  { rewrite lookup_app_r by lia. rewrite Nat.sub_diag. reflexivity. }
  assert (G : to_grayscale (PyImg l) true h = (h ++ [gray], Ret (PyImg (length h)))).
  { unfold to_grayscale. cbn [as_image]. rewrite ret_bind, load_bind, Hl, lift_bind, Eg.
    reflexivity. }
  assert (B : binary_threshold (PyImg (length h)) default_threshold true (h ++ [gray])
              = ((h ++ [gray]) ++ [bw], Ret (PyImg (length (h ++ [gray]))))).
  { unfold binary_threshold. cbn [as_image]. rewrite ret_bind, load_bind, L1, lift_bind, Eb.
    reflexivity. }
  assert (R : bilinear_filter (PyImg (length (h ++ [gray]))) (float_of_int 2) true
                ((h ++ [gray]) ++ [bw])
              = (<[length (h ++ [gray]) := small]> ((h ++ [gray]) ++ [bw]), Ret PyNone)).
  { assert (Th : thumbnail (PyImg (length (h ++ [gray]))) (300, 300) BILINEAR
                   ((h ++ [gray]) ++ [bw])
                 = (<[length (h ++ [gray]) := small]> ((h ++ [gray]) ++ [bw]), Ret PyNone)).
    { unfold thumbnail. cbn [as_image]. rewrite ret_bind, load_bind, L2, lift_bind, Et.
      reflexivity. }
    unfold bilinear_filter. rewrite (bind_ret _ _ _ _ _ Th). reflexivity. }
  unfold preprocess.
  rewrite (bind_ret _ _ _ _ _ G), (bind_ret _ _ _ _ _ B), (bind_ret _ _ _ _ _ R).
  rewrite bind_unfold, bicubic_fast_none. f_equal.
  rewrite insert_app_r_alt by lia. rewrite Nat.sub_diag. cbn [insert].
  rewrite <- app_assoc. reflexivity.
Qed.

Lemma preprocess_with_working_pil_witness :
  @preprocess PIL_identity LibM_product (PyImg 0%nat) [photo]
  = ([photo] ++ [photo; photo], Raise AttributeError).
Proof.
  apply (@preprocess_with_working_pil PIL_identity LibM_product [photo] 0%nat
           photo photo photo photo); reflexivity.
Defined.

(** ** [get_text_from_image] and the page *)

(** X17: once the model has answered, [get_text_from_image] raises nothing
    and leaves the heap as the answer left it; what it returns is
    [response.text] unchanged when that can be read, and otherwise [None] or
    the fixed string, never anything else. *)
Theorem get_text_after_the_answer `{pil : PIL} `{libm : LibM} `{sv : Services}
    (image : PyVal) (fast : bool) (h h' : Heap) (response : Response) :
  ask_model image fast h = (h', Ret response) ->
  exists v, get_text_from_image image fast h = (h', Ret v)
    /\ (forall text, response_text response = Ret text -> v = PyStr text)
    /\ (raised (response_text response) ->
          v = PyNone \/ v = PyStr "Sorry I couldn Understand the Prescription").
Proof.
  intros E. exists (handle_response response). split; [ | split].
  - unfold get_text_from_image. rewrite (bind_ret _ _ _ _ _ E). reflexivity.
  - intros text Et. unfold handle_response. rewrite Et. reflexivity.
  - intros [e Ee]. unfold handle_response. rewrite Ee.
    destruct (response_parts_0 response); [left | right]; reflexivity.
Qed.

Lemma get_text_after_the_answer_witness :
  exists v,
    @get_text_from_image PIL_absent LibM_product (Services_answering response_plain)
      (PyFile 0) true []
    = ([uniform 1 1 (RGB 255 255 255)], Ret v)
    /\ (forall text, response_text response_plain = Ret text -> v = PyStr text)
    /\ (raised (response_text response_plain) ->
          v = PyNone \/ v = PyStr "Sorry I couldn Understand the Prescription").
Proof.
  apply (@get_text_after_the_answer PIL_absent LibM_product (Services_answering response_plain)
           (PyFile 0) true [] [uniform 1 1 (RGB 255 255 255)] response_plain).
  reflexivity.
Defined.

(** X18: on the page, when a file has been uploaded and the model answers
    with a text that cannot be read but with parts that can, [None] is
    what [st.write] shows and what [gTTS] is asked to speak; if [gTTS]
    refuses it, the page ends in that exception after the write. *)
Theorem project_speaks_none `{pil : PIL} `{libm : LibM} `{sv : Services} `{ap : AppServices}
    (h h1 h2 : Heap) (image : PyVal) (response : Response) :
  st_file_uploader "Upload an image" h = (h1, Ret image) ->
  truthy image = true ->
  ask_model image true h1 = (h2, Ret response) ->
  raised (response_text response) ->
  (exists part, response_parts_0 response = Ret part) ->
  project h
  = (st_write_value PyNone;; get_speech_from_text PyNone;;
     st_audio "audio.wav" "audio/wav";; mret PyNone) h2
  /\ forall h3 h4 e,
       st_write_value PyNone h2 = (h3, Ret tt) ->
       gTTS PyNone "en" false h3 = (h4, Raise e) ->
       project h = (h4, Raise e).
Proof.
  intros Eu Ht Ea [e1 E1] [part E2].
  assert (Et : get_text_from_image image true h1 = (h2, Ret PyNone)).
  { unfold get_text_from_image. rewrite (bind_ret _ _ _ _ _ Ea).
    unfold handle_response. rewrite E1, E2. reflexivity. }
  assert (P : project h
              = (st_write_value PyNone;; get_speech_from_text PyNone;;
                 st_audio "audio.wav" "audio/wav";; mret PyNone) h2).
  { unfold project. rewrite (bind_ret _ _ _ _ _ Eu), Ht.
    rewrite (bind_ret _ _ _ _ _ Et). reflexivity. }
  split; [exact P | ].
  intros h3 h4 e Ew Eg. rewrite P.
  rewrite (bind_ret _ _ _ _ _ Ew).
  apply bind_raise. unfold get_speech_from_text. apply bind_raise. exact Eg.
Qed.

Lemma project_speaks_none_witness :
  @project PIL_absent LibM_product (Services_answering response_two_parts)
    (AppServices_quiet (PyFile 0)) []
  = (@st_write_value (AppServices_quiet (PyFile 0)) PyNone;;
     @get_speech_from_text (AppServices_quiet (PyFile 0)) PyNone;;
     @st_audio (AppServices_quiet (PyFile 0)) "audio.wav" "audio/wav";; mret PyNone)
      [uniform 1 1 (RGB 255 255 255)].
Proof.
  apply (@project_speaks_none PIL_absent LibM_product (Services_answering response_two_parts)
           (AppServices_quiet (PyFile 0)) [] [] [uniform 1 1 (RGB 255 255 255)]
           (PyFile 0) response_two_parts).
  - reflexivity.
  - reflexivity.
  - reflexivity.
  - exists ValueError. reflexivity.
  - exists "Take one tablet"%string. reflexivity.
Defined.

(** The page never reaches the four stages: whatever [convert],
    [point], [thumbnail] and [pow] do, the script of [app.py] behaves the
    same, for every answer of its other collaborators. *)
Lemma app_never_runs_the_stages (pil1 pil2 : PIL) (libm1 libm2 : LibM)
    (sv : Services) (ap : AppServices) :
  @app pil1 libm1 sv ap = @app pil2 libm2 sv ap
  /\ @project pil1 libm1 sv ap = @project pil2 libm2 sv ap.
Proof. split; reflexivity. Qed.
